(** * Mycodo controller concurrency runtime: retry, timeout, event-loop
    management and the controller lifecycle.

  Shallow embedding of [mycodo/utils/async_utils.py], of the example
  controller in [examples/async_sensor_example.py] and of the checks in
  [mycodo/tests/software_tests].

  Conventions of the embedding
  - Python [float] durations are idealised as exact rationals ([Q]).
  - A coroutine call is a state transformer that either returns a value
    or raises an exception; [await] is sequencing.
  - Counters that Python does not keep (number of invocations, total
    suspended time, the list of requested sleeps) are ghost fields of
    the world, as a mock's [call_count] would record them. *)

From Stdlib Require Import ZArith QArith Qminmax Lia Lqa.
From stdpp Require Import base option list list_numbers gmap strings pretty.

Local Open Scope Z_scope.

(* ===================================================================== *)
(** ** Python values, exceptions and results                              *)
(* ===================================================================== *)

Module Py.

(** The exception classes the runtime distinguishes, with Python's
    hierarchy.  [asyncio.TimeoutError] is the builtin [TimeoutError];
    [CancelledError] and [KeyboardInterrupt] derive from
    [BaseException] only. *)
Inductive exc_class : Type :=
| BaseException | Exception | ValueError | RuntimeError | TypeError
| OSError | ConnectionError | TimeoutError | StopAsyncIteration
| CancelledError | KeyboardInterrupt.

#[global] Instance exc_class_eq_dec : EqDecision exc_class.
Proof. solve_decision. Defined.

(** Method resolution order: the class followed by its ancestors. *)
Definition mro (c : exc_class) : list exc_class :=
  match c with
  | BaseException => [BaseException]
  | Exception => [Exception; BaseException]
  | ValueError => [ValueError; Exception; BaseException]
  | RuntimeError => [RuntimeError; Exception; BaseException]
  | TypeError => [TypeError; Exception; BaseException]
  | OSError => [OSError; Exception; BaseException]
  | ConnectionError => [ConnectionError; OSError; Exception; BaseException]
  | TimeoutError => [TimeoutError; OSError; Exception; BaseException]
  | StopAsyncIteration => [StopAsyncIteration; Exception; BaseException]
  | CancelledError => [CancelledError; BaseException]
  | KeyboardInterrupt => [KeyboardInterrupt; BaseException]
  end.

Definition issubclass (c d : exc_class) : bool := bool_decide (d ∈ mro c).

(** An exception object: its class and its message ([str(e)]). *)
Record exn : Type := Exn { exc_type : exc_class; exc_msg : string }.

#[global] Instance exn_eq_dec : EqDecision exn.
Proof. solve_decision. Defined.

(** [isinstance(e, classes)] for a tuple of classes, the test an
    [except classes as e] clause performs. *)
Definition isinstance (e : exn) (classes : list exc_class) : bool :=
  existsb (issubclass (exc_type e)) classes.

(** Python values that cross the interfaces modelled here. *)
Inductive value : Type :=
| VNone
| VBool (b : bool)
| VInt (z : Z)
| VFloat (q : Q)
| VStr (s : string).

#[global] Instance Q_eq_dec : EqDecision Q.
Proof. solve_decision. Defined.

#[global] Instance value_eq_dec : EqDecision value.
Proof. solve_decision. Defined.

(** [v is not None] *)
Definition is_not_None (v : value) : bool :=
  match v with VNone => false | _ => true end.

(** Outcome of a call: a returned value or a raised exception. *)
Inductive result (A : Type) : Type :=
| Ret (a : A)
| Raise (e : exn).
Arguments Ret {A} a.
Arguments Raise {A} e.

(** [raise x] where [x] may be [None]: Python refuses to raise a
    non-exception with a [TypeError]. *)
Definition raise_object {A} (x : option exn) : result A :=
  match x with
  | Some e => Raise e
  | None => Raise (Exn TypeError "exceptions must derive from BaseException")
  end.

(** Python's [min(a, b)]: the first argument unless the second is
    strictly smaller. *)
Definition min (a b : Q) : Q := if Qle_bool a b then a else b.

End Py.
Import Py.

(* ===================================================================== *)
(** ** The world a coroutine runs in                                      *)
(* ===================================================================== *)

(** Records handed to [logger]; the fields are the values interpolated in
  the message. *)
Inductive log_record : Type :=
| LogRetryWarning (attempt_number max_retries : Z) (e : exn) (delay : Q)
| LogRetryError (max_retries : Z) (e : exn)
| LogTimeoutWarning (timeout_sec : Q)
| LogNoLoopDebug
| LogInitializationFailed (e : exn)
| LogLoopIterationError (e : exn)
| LogCleanupError (e : exn).

Record world (Env : Type) : Type := World {
env : Env;                 (* whatever the called function reads and writes *)
logs : list log_record;    (* records emitted so far, oldest first *)
calls : nat;               (* ghost: invocations of [func] *)
slept : list Q;            (* ghost: arguments of [asyncio.sleep], in order *)
suspended : Q              (* ghost: time spent inside [asyncio.sleep] *)
}.
Arguments World {Env}.
Arguments env {Env}.
Arguments logs {Env}.
Arguments calls {Env}.
Arguments slept {Env}.
Arguments suspended {Env}.

Definition M (Env A : Type) : Type := world Env → result A * world Env.

Definition emit {Env} (r : log_record) (w : world Env) : world Env :=
World (env w) (logs w ++ [r]) (calls w) (slept w) (suspended w).

Definition with_env {Env : Type} (w : world Env) (e : Env) : world Env :=
  World e (logs w) (calls w) (slept w) (suspended w).

(** A fresh world around an environment. *)
Definition boot {Env} (e : Env) : world Env := World e [] 0%nat [] 0%Q.

(* ===================================================================== *)
(** ** [mycodo/utils/async_utils.py]                                      *)
(* ===================================================================== *)

Module AsyncUtils.

Section Retry.
Context {Env : Type}.

(** [asyncio.sleep(d)] suspends the caller for at least [d] seconds;
    [lateness i] is how much longer than requested the [i]-th sleep of
    the run lasts (a non-positive request returns at once). *)
Variable lateness : nat → Q.

Variable func : Env → result value * Env.
Variable max_retries : Z.
Variables initial_delay backoff_factor max_delay : Q.
Variable exceptions : list exc_class.

Definition asyncio_sleep (d : Q) (w : world Env) : world Env :=
  World (env w) (logs w) (calls w) (slept w ++ [d])
        (suspended w + (Qmax d 0 + lateness (length (slept w))))%Q.

(** [await func(...)]: one invocation of the operation. *)
Definition call_func : M Env value := fun w =>
  let '(r, e') := func (env w) in
  (r, World e' (logs w) (S (calls w)) (slept w) (suspended w)).

(** The body of [for attempt in range(max_retries)], followed by the
    [raise last_exception] after the loop. *)
Fixpoint retry_attempts (attempts : list Z) (delay : Q)
    (last_exception : option exn) : M Env value :=
  fun w =>
  match attempts with
  | [] => (raise_object last_exception, w)
  | attempt :: rest =>
      match call_func w with
      | (Ret v, w1) => (Ret v, w1)
      | (Raise e, w1) =>
          if isinstance e exceptions then
            if attempt <? max_retries - 1 then
              let w2 := emit (LogRetryWarning (attempt + 1) max_retries e delay) w1 in
              let w3 := asyncio_sleep delay w2 in
              retry_attempts rest (Py.min (delay * backoff_factor) max_delay)
                             (Some e) w3
            else
              let w2 := emit (LogRetryError max_retries e) w1 in
              retry_attempts rest delay (Some e) w2
          else (Raise e, w1)
      end
  end.

Definition async_retry : M Env value :=
  retry_attempts (seqZ 0 max_retries) initial_delay None.

(** *** Vocabulary for stating what an operation does *)

(** The environment after [k] further invocations of [func] (whatever
    their outcome). *)
Fixpoint env_after (k : nat) (e : Env) : Env :=
  match k with
  | O => e
  | S k' => env_after k' (snd (func e))
  end.

(** The next [k] invocations of [func] all raise an exception that the
    [except exceptions] clause catches. *)
Fixpoint fails_retryably (k : nat) (e : Env) : Prop :=
  match k with
  | O => True
  | S k' =>
      match func e with
      | (Raise x, e') => isinstance x exceptions = true ∧ fails_retryably k' e'
      | (Ret _, _) => False
      end
  end.


(** The delays of the backoff schedule: [d], [min(d * factor, cap)], ... *)
Fixpoint backoff_delays (m : nat) (d : Q) : list Q :=
  match m with
  | O => []
  | S m' => d :: backoff_delays m' (Py.min (d * backoff_factor) max_delay)
  end.


(** *** Loop invariants of [retry_attempts] *)

Lemma seqZ_succ (a : Z) (m : nat) :
  seqZ a (Z.of_nat (S m)) = a :: seqZ (a + 1) (Z.of_nat m).
Proof.
  rewrite seqZ_cons by lia. f_equal. f_equal; lia.
Qed.

(** While attempts remain after the [k] retryable failures, the loop
    hands back whatever the next invocation produces, provided it is a
    value or an exception the [except] clause does not catch. *)
Lemma retry_attempts_settles (k : nat) :
  ∀ (m : nat) (a : Z) (delay : Q) (last_exception : option exn)
    (w : world Env) (r : result value) (e' : Env),
    a + Z.of_nat m = max_retries →
    (k < m)%nat →
    fails_retryably k (env w) →
    func (env_after k (env w)) = (r, e') →
    (∀ x, r = Raise x → isinstance x exceptions = false) →
    let out := retry_attempts (seqZ a (Z.of_nat m)) delay last_exception w in
    fst out = r ∧ env (snd out) = e' ∧ calls (snd out) = (calls w + S k)%nat ∧
    slept (snd out) = slept w ++ backoff_delays k delay.
Proof.
  induction k as [|k IH]; intros m a delay last_exception w r e' Ha Hk Hf Hr Hx.
  - destruct m as [|m]; [lia|]. rewrite seqZ_succ. simpl in *.
    unfold call_func. rewrite Hr.
    destruct r as [v|x]; simpl.
    + rewrite app_nil_r. repeat split; lia.
    + rewrite (Hx x eq_refl). simpl. rewrite app_nil_r. repeat split; lia.
  - destruct m as [|m]; [lia|]. rewrite seqZ_succ. simpl in Hf, Hr |- *.
    unfold call_func.
    destruct (func (env w)) as [[v|x] e1] eqn:E; [contradiction|].
    destruct Hf as [Hi Hf]. rewrite Hi.
    assert ((a <? max_retries - 1) = true) as -> by (apply Z.ltb_lt; lia).
    simpl in Hr.
    set (w3 := asyncio_sleep delay _).
    specialize (IH m (a + 1) (Py.min (delay * backoff_factor) max_delay)
                  (Some x) w3 r e').
    destruct IH as (H1 & H2 & H3 & H4); try done; try lia.
    repeat split; try done.
    + rewrite H3. simpl. lia.
    + rewrite H4. simpl. by rewrite <- app_assoc.
Qed.

(** When every one of the [m >= 1] remaining attempts fails with a caught
    exception, the loop runs out and raises the last of them. *)
Lemma retry_attempts_exhausts (m : nat) :
  ∀ (a : Z) (delay : Q) (last_exception : option exn) (w : world Env)
    (x : exn) (e' : Env),
    a + Z.of_nat (S m) = max_retries →
    fails_retryably (S m) (env w) →
    func (env_after m (env w)) = (Raise x, e') →
    let out := retry_attempts (seqZ a (Z.of_nat (S m))) delay last_exception w in
    fst out = Raise x ∧ env (snd out) = e' ∧ calls (snd out) = (calls w + S m)%nat ∧
    slept (snd out) = slept w ++ backoff_delays m delay ∧
    last (logs (snd out)) = Some (LogRetryError max_retries x).
Proof.
  induction m as [|m IH]; intros a delay last_exception w x e' Ha Hf Hr.
  - rewrite seqZ_succ. simpl in *. unfold call_func. rewrite Hr in *.
    destruct Hf as [Hi _]. rewrite Hi.
    assert ((a <? max_retries - 1) = false) as -> by (apply Z.ltb_ge; lia).
    simpl. rewrite app_nil_r, last_snoc.
    repeat split; lia.
  - rewrite seqZ_succ. simpl in Hf, Hr |- *. unfold call_func.
    destruct (func (env w)) as [[v|y] e1] eqn:E; [contradiction|].
    destruct Hf as [Hi Hf]. rewrite Hi.
    assert ((a <? max_retries - 1) = true) as -> by (apply Z.ltb_lt; lia).
    simpl in Hr.
    set (w3 := asyncio_sleep delay _).
    specialize (IH (a + 1) (Py.min (delay * backoff_factor) max_delay)
                  (Some y) w3 x e').
    destruct IH as (H1 & H2 & H3 & H4 & H5); try done; try lia.
    repeat split; try done.
    + rewrite H3. simpl. lia.
    + rewrite H4. simpl. by rewrite <- app_assoc.
Qed.


(** *** The backoff schedule *)

Lemma backoff_delays_length (m : nat) (d : Q) : length (backoff_delays m d) = m.
Proof. revert d. induction m as [|m IH]; intros d; simpl; [done|]. by rewrite IH. Qed.

Lemma backoff_delays_head (m : nat) (d x : Q) :
  backoff_delays m d !! 0%nat = Some x → x = d.
Proof. destruct m; simpl; [done|]. by intros [= ->]. Qed.


(** The first attempt succeeding, nothing else happens. *)
Lemma async_retry_first_try (w : world Env) (v : value) (e' : Env) :
  1 ≤ max_retries →
  func (env w) = (Ret v, e') →
  async_retry w = (Ret v, World e' (logs w) (S (calls w)) (slept w) (suspended w)).
Proof.
  intros Hn Hr. unfold async_retry. rewrite seqZ_cons by lia. simpl.
  unfold call_func. by rewrite Hr.
Qed.

(** *** Properties of [async_retry] *)




End Retry.

(** *** Test doubles of [tests/software_tests/test_async_utils.py] *)

(** [AsyncMock(side_effect=[...])]: each call consumes the next entry of
    the script; a call past its end raises [StopAsyncIteration]. *)
Definition async_mock (script : list (result value))
  : result value * list (result value) :=
  match script with
  | [] => (Raise (Exn StopAsyncIteration ""), [])
  | r :: rest => (r, rest)
  end.

(** [AsyncMock(side_effect=ValueError("Always fails"))] *)
Definition always_fails (_ : unit) : result value * unit :=
  (Raise (Exn ValueError "Always fails"), tt).

(** A scheduler that wakes every sleeper one millisecond late. *)
Definition late_by_1ms (_ : nat) : Q := 1 # 1000.

(** [test_retry_on_failure]: two [ValueError]s, then ["success"]. *)
Definition retry_on_failure_script : list (result value) :=
  [Raise (Exn ValueError "First attempt");
   Raise (Exn ValueError "Second attempt");
   Ret (VStr "success")].

Definition test_retry_on_failure : result value * world (list (result value)) :=
  async_retry late_by_1ms async_mock 3 (1 # 100) 2 60 [ValueError]
              (boot retry_on_failure_script).

(** [test_max_retries_exceeded] *)
Definition test_max_retries_exceeded : result value * world unit :=
  async_retry late_by_1ms always_fails 2 (1 # 100) 2 60 [ValueError] (boot tt).

(** [test_max_delay_cap]: a cap below the initial delay. *)
Definition test_max_delay_cap : result value * world (list (result value)) :=
  async_retry late_by_1ms async_mock 3 1 10 (1 # 10) [ValueError]
              (boot [Raise (Exn ValueError ""); Raise (Exn ValueError "");
                     Ret (VStr "success")]).

Example test_retry_on_failure_passes :
  fst test_retry_on_failure = Ret (VStr "success") ∧
  calls (snd test_retry_on_failure) = 3%nat ∧
  slept (snd test_retry_on_failure) = [1 # 100; (1 # 100) * 2]%Q.
Proof. vm_compute. repeat split. Qed.

Example test_max_retries_exceeded_passes :
  fst test_max_retries_exceeded = Raise (Exn ValueError "Always fails") ∧
  calls (snd test_max_retries_exceeded) = 2%nat ∧
  slept (snd test_max_retries_exceeded) = [1 # 100].
Proof. vm_compute. repeat split. Qed.

Example test_max_delay_cap_passes :
  fst test_max_delay_cap = Ret (VStr "success") ∧
  slept (snd test_max_delay_cap) = [1; 1 # 10]%Q.
Proof. vm_compute. repeat split. Qed.

(** An exception outside [exceptions] leaves at once, without a retry. *)
Example async_retry_uncaught_propagates :
  let out := async_retry late_by_1ms async_mock 3 1 2 60 [ValueError]
               (boot [Raise (Exn RuntimeError "boom"); Ret (VStr "late")]) in
  fst out = Raise (Exn RuntimeError "boom") ∧ calls (snd out) = 1%nat ∧
  slept (snd out) = [].
Proof. vm_compute. repeat split. Qed.

(** With no attempt allowed the loop body never runs and [raise None]
    fails with a [TypeError]. *)
Example async_retry_zero_attempts :
  fst (async_retry late_by_1ms always_fails 0 1 2 60 [Exception] (boot tt))
  = Raise (Exn TypeError "exceptions must derive from BaseException").
Proof. reflexivity. Qed.








(* --------------------------------------------------------------------- *)
(** *** [async_timeout]                                                   *)
(* --------------------------------------------------------------------- *)

(** A coroutine object, as far as a caller can tell: how long it needs to
    finish when left alone, and what it then returns or raises. *)
Record coroutine : Type := Coroutine {
  duration : Q;
  outcome : result value
}.

(** [asyncio.wait_for(coro, timeout)]: the coroutine's own outcome when it
    finishes before [timeout] seconds have passed; otherwise the coroutine
    is cancelled and [TimeoutError] is raised. *)
Definition wait_for (coro : coroutine) (timeout : Q) : result value :=
  if negb (Qle_bool timeout (duration coro)) then outcome coro
  else Raise (Exn TimeoutError "").

Definition async_timeout {Env : Type} (coro : coroutine) (timeout_sec : Q)
    (timeout_result : value) : M Env value :=
  fun w =>
  match wait_for coro timeout_sec with
  | Ret v => (Ret v, w)
  | Raise e =>
      if isinstance e [TimeoutError] then
        if is_not_None timeout_result then
          (Ret timeout_result, emit (LogTimeoutWarning timeout_sec) w)
        else (Raise e, w)
      else (Raise e, w)
  end.

(** [test_completes_within_timeout], [test_timeout_with_default_result]
    and [test_timeout_raises_exception]. *)
Definition quick_func : coroutine := Coroutine (1 # 100) (Ret (VStr "completed")).
Definition slow_func : coroutine := Coroutine 10 (Ret (VStr "never reached")).

Example test_completes_within_timeout :
  fst (async_timeout quick_func 1 VNone (boot tt)) = Ret (VStr "completed").
Proof. reflexivity. Qed.

Example test_timeout_with_default_result :
  fst (async_timeout slow_func (1 # 10) (VStr "default") (boot tt))
  = Ret (VStr "default").
Proof. reflexivity. Qed.

Example test_timeout_raises_exception :
  fst (async_timeout slow_func (1 # 10) VNone (boot tt))
  = Raise (Exn TimeoutError "").
Proof. reflexivity. Qed.

Lemma wait_for_in_time (coro : coroutine) (timeout : Q) :
  (duration coro < timeout)%Q → wait_for coro timeout = outcome coro.
Proof.
  intros Hlt. unfold wait_for.
  destruct (Qle_bool timeout (duration coro)) eqn:E; [|done].
  apply Qle_bool_iff in E. lra.
Qed.

Lemma wait_for_late (coro : coroutine) (timeout : Q) :
  (timeout <= duration coro)%Q → wait_for coro timeout = Raise (Exn TimeoutError "").
Proof.
  intros Hle. unfold wait_for.
  apply Qle_bool_iff in Hle. by rewrite Hle.
Qed.


(** An operation that fails fast with a [TimeoutError] of its own (an
    inner [wait_for] with a shorter deadline, say), wrapped with a
    fallback. *)
Definition inner_wait_timed_out : coroutine :=
  Coroutine (1 # 100) (Raise (Exn TimeoutError "inner wait timed out")).




(** On that input the early branch is the one taken, and it yields the
    fallback. *)
Example async_timeout_early_TimeoutError_gives_fallback :
  (duration inner_wait_timed_out < 1)%Q ∧
  isinstance (Exn TimeoutError "inner wait timed out") [TimeoutError] = true ∧
  fst (async_timeout inner_wait_timed_out 1 (VStr "default") (boot tt))
  = Ret (VStr "default").
Proof. split_and!; reflexivity. Qed.



(* --------------------------------------------------------------------- *)
(** *** [AsyncEventLoopManager]                                           *)
(* --------------------------------------------------------------------- *)

(** What [asyncio] keeps for the calling thread.  Loop and task objects
    are mutable and shared, so they live in stores and are referred to by
    identity. *)
Record asyncio_state : Type := AsyncioState {
  loops : gmap nat bool;               (* every loop created so far ↦ [is_closed()] *)
  current_loop : option nat;           (* the policy's loop of this thread *)
  set_called : bool;                   (* [set_event_loop] was called in this thread *)
  main_thread : bool;                  (* this is the main thread *)
  running_loop : option nat;           (* the loop running in this thread, if any *)
  tasks : gmap nat (nat * coroutine)   (* every task created ↦ its loop and coroutine *)
}.

Definition is_closed (st : asyncio_state) (loop : nat) : bool :=
  bool_decide (loops st !! loop = Some true).

(** [asyncio.new_event_loop()]: a new, open loop object. *)
Definition new_event_loop (st : asyncio_state) : nat * asyncio_state :=
  let loop := fresh (dom (loops st)) in
  (loop, AsyncioState (<[loop := false]> (loops st)) (current_loop st)
                      (set_called st) (main_thread st) (running_loop st) (tasks st)).

(** [asyncio.set_event_loop(loop)] *)
Definition set_event_loop (loop : nat) (st : asyncio_state) : asyncio_state :=
  AsyncioState (loops st) (Some loop) true (main_thread st) (running_loop st)
               (tasks st).

(** [asyncio.get_event_loop()]: the running loop when there is one, else
    the thread's current loop; the main thread gets one made on first use,
    any other thread without a loop gets a [RuntimeError]. *)
Definition get_event_loop (st : asyncio_state) : result nat * asyncio_state :=
  match running_loop st with
  | Some loop => (Ret loop, st)
  | None =>
      match current_loop st with
      | Some loop => (Ret loop, st)
      | None =>
          if negb (set_called st) && main_thread st then
            let '(loop, st1) := new_event_loop st in
            (Ret loop, set_event_loop loop st1)
          else
            (Raise (Exn RuntimeError "There is no current event loop"), st)
      end
  end.

(** [asyncio.get_running_loop()] *)
Definition get_running_loop (st : asyncio_state) : result nat :=
  match running_loop st with
  | Some loop => Ret loop
  | None => Raise (Exn RuntimeError "no running event loop")
  end.

(** [loop.create_task(coro)]: refused on a closed loop. *)
Definition create_task (loop : nat) (coro : coroutine) (st : asyncio_state)
  : result nat * asyncio_state :=
  if is_closed st loop then (Raise (Exn RuntimeError "Event loop is closed"), st)
  else
    let task := fresh (dom (tasks st)) in
    (Ret task, AsyncioState (loops st) (current_loop st) (set_called st)
                            (main_thread st) (running_loop st)
                            (<[task := (loop, coro)]> (tasks st))).

(** [await task]: the outcome of the coroutine the task wraps. *)
Definition await_task (st : asyncio_state) (task : nat) : option (result value) :=
  (λ lc, outcome (snd lc)) <$> tasks st !! task.

(** The two statements both branches of [get_or_create_event_loop] run:
    [loop = asyncio.new_event_loop(); asyncio.set_event_loop(loop)]. *)
Definition install_new_loop (st : asyncio_state) : nat * asyncio_state :=
  let '(loop, st1) := new_event_loop st in (loop, set_event_loop loop st1).
Arguments install_new_loop : simpl never.

Definition get_or_create_event_loop : M asyncio_state nat :=
  fun w =>
  match get_event_loop (env w) with
  | (Ret loop, st1) =>
      if is_closed st1 loop then
        let '(loop', st2) := install_new_loop st1 in (Ret loop', with_env w st2)
      else (Ret loop, with_env w st1)
  | (Raise e, st1) =>
      if isinstance e [RuntimeError] then
        let '(loop', st2) := install_new_loop st1 in (Ret loop', with_env w st2)
      else (Raise e, with_env w st1)
  end.

Definition create_task_if_loop_running (coro : coroutine)
  : M asyncio_state (option nat) :=
  fun w =>
  let no_loop (e : exn) (st : asyncio_state) :=
    if isinstance e [RuntimeError] then
      (Ret None, emit LogNoLoopDebug (with_env w st))
    else (Raise e, with_env w st) in
  match get_running_loop (env w) with
  | Ret loop =>
      match create_task loop coro (env w) with
      | (Ret task, st1) => (Ret (Some task), with_env w st1)
      | (Raise e, st1) => no_loop e st1
      end
  | Raise e => no_loop e (env w)
  end.

(** What [asyncio] itself maintains: the running loop is open (a running
    loop refuses [close()]), and the thread's current loop is a loop that
    was created. *)
Definition asyncio_wf (st : asyncio_state) : Prop :=
  (∀ loop, running_loop st = Some loop → loops st !! loop = Some false) ∧
  (∀ loop, current_loop st = Some loop → is_Some (loops st !! loop)).

(** States of a thread used below. *)
Definition fresh_worker_thread : asyncio_state :=
  AsyncioState ∅ None false false None ∅.
Definition thread_with_closed_loop : asyncio_state :=
  AsyncioState {[ 0%nat := true ]} (Some 0%nat) true true None ∅.
Definition inside_running_loop : asyncio_state :=
  AsyncioState {[ 0%nat := false ]} (Some 0%nat) true true (Some 0%nat) ∅.

Lemma install_new_loop_spec (st : asyncio_state) :
  ∀ loop st', install_new_loop st = (loop, st') →
    (loop ∉ dom (loops st)) ∧
    loops st' = <[loop := false]> (loops st) ∧
    current_loop st' = Some loop ∧
    running_loop st' = running_loop st ∧
    tasks st' = tasks st.
Proof.
  intros loop st' [= <- <-]. simpl.
  split; [apply is_fresh | done].
Qed.

Lemma install_new_loop_wf (st : asyncio_state) (loop : nat) (st' : asyncio_state) :
  asyncio_wf st → install_new_loop st = (loop, st') → asyncio_wf st'.
Proof.
  intros [Hrun Hcur] H. apply install_new_loop_spec in H as (Hfresh & Hl & Hc & Hr & _).
  split.
  - intros l Hl'. rewrite Hr in Hl'. rewrite Hl.
    destruct (decide (l = loop)) as [->|Hne].
    + apply Hrun in Hl'. apply not_elem_of_dom in Hfresh. congruence.
    + rewrite lookup_insert_ne by done. by apply Hrun.
  - intros l Hl'. rewrite Hc in Hl'. injection Hl' as <-.
    rewrite Hl, lookup_insert_eq. by eexists.
Qed.

(** C7. Every call to [get_or_create_event_loop] returns a loop that is
    not closed.  Outside a running loop the returned loop is the thread's
    current one, and when the thread had no loop or its loop was closed,
    the returned loop is a newly created one, installed as current. *)
Theorem get_or_create_event_loop_open (w : world asyncio_state) :
  asyncio_wf (env w) →
  ∃ loop w',
    get_or_create_event_loop w = (Ret loop, w') ∧
    is_closed (env w') loop = false ∧
    loops (env w') !! loop = Some false ∧
    asyncio_wf (env w') ∧
    (running_loop (env w) = None → current_loop (env w') = Some loop) ∧
    (running_loop (env w) = None →
     (current_loop (env w) = None ∨
      ∃ old, current_loop (env w) = Some old ∧ is_closed (env w) old = true) →
     (loop ∉ dom (loops (env w))) ∧ current_loop (env w') = Some loop).
Proof.
  intros Hwf. pose proof Hwf as [Hrun Hcur].
  unfold get_or_create_event_loop, get_event_loop.
  destruct (running_loop (env w)) as [r|] eqn:Er.
  - (* inside a running loop *)
    pose proof (Hrun r eq_refl) as Hopen.
    assert (is_closed (env w) r = false) as Hc
      by (unfold is_closed; rewrite Hopen; by apply bool_decide_eq_false).
    rewrite Hc. exists r, (with_env w (env w)). simpl.
    split_and!; try done.
  - destruct (current_loop (env w)) as [c|] eqn:Ec.
    + destruct (is_closed (env w) c) eqn:Hc.
      * (* the thread's loop was closed *)
        destruct (install_new_loop (env w)) as [l st2] eqn:Ei.
        pose proof (install_new_loop_wf _ _ _ Hwf Ei) as Hwf2.
        apply install_new_loop_spec in Ei as (Hfresh & Hl & Hcl & Hr & _).
        exists l, (with_env w st2). simpl.
        assert (loops st2 !! l = Some false) as Hopen
          by (rewrite Hl; apply lookup_insert_eq).
        split_and!; try done.
        unfold is_closed. rewrite Hopen. by apply bool_decide_eq_false.
      * (* the thread's loop is open *)
        destruct (Hcur c eq_refl) as [b Hb].
        assert (b = false) as ->.
        { destruct b; [|done]. unfold is_closed in Hc. rewrite Hb in Hc.
          by rewrite bool_decide_eq_true_2 in Hc. }
        exists c, (with_env w (env w)). simpl.
        split_and!; try done.
        intros _ [Hn | (old & Ho & Hoc)]; [done|]. congruence.
    + (* the thread has no loop *)
      destruct (negb (set_called (env w)) && main_thread (env w)).
      * (* asyncio makes one for the main thread; it is open *)
        change (let '(loop, st1) := new_event_loop (env w) in
                (Ret loop, set_event_loop loop st1))
          with (let '(loop, st1) := install_new_loop (env w) in
                (@Ret nat loop, st1)).
        destruct (install_new_loop (env w)) as [l st2] eqn:Ei.
        pose proof (install_new_loop_wf _ _ _ Hwf Ei) as Hwf2.
        apply install_new_loop_spec in Ei as (Hfresh & Hl & Hcl & Hr & _).
        assert (loops st2 !! l = Some false) as Hopen
          by (rewrite Hl; apply lookup_insert_eq).
        assert (is_closed st2 l = false) as Hc
          by (unfold is_closed; rewrite Hopen; by apply bool_decide_eq_false).
        rewrite Hc. exists l, (with_env w st2). simpl.
        split_and!; try done.
      * (* [RuntimeError]: caught, a loop is created *)
        change (isinstance _ [RuntimeError]) with true. cbv iota.
        destruct (install_new_loop (env w)) as [l st2] eqn:Ei.
        pose proof (install_new_loop_wf _ _ _ Hwf Ei) as Hwf2.
        apply install_new_loop_spec in Ei as (Hfresh & Hl & Hcl & Hr & _).
        assert (loops st2 !! l = Some false) as Hopen
          by (rewrite Hl; apply lookup_insert_eq).
        exists l, (with_env w st2). simpl.
        split_and!; try done.
        unfold is_closed. rewrite Hopen. by apply bool_decide_eq_false.
Qed.

Lemma thread_with_closed_loop_wf : asyncio_wf thread_with_closed_loop.
Proof.
  split; intros loop; simpl; [done|].
  intros [= <-]. rewrite lookup_singleton_eq. by eexists.
Qed.

Lemma inside_running_loop_wf : asyncio_wf inside_running_loop.
Proof.
  split; intros loop; simpl; intros [= <-]; rewrite lookup_singleton_eq; eauto.
Qed.

(** [test_get_or_create_event_loop], on a thread whose loop was closed. *)
Lemma get_or_create_event_loop_open_witness :
  ∃ loop w',
    get_or_create_event_loop (boot thread_with_closed_loop) = (Ret loop, w') ∧
    is_closed (env w') loop = false ∧
    loops (env w') !! loop = Some false ∧
    asyncio_wf (env w') ∧
    (running_loop (env (boot thread_with_closed_loop)) = None →
     current_loop (env w') = Some loop) ∧
    (running_loop (env (boot thread_with_closed_loop)) = None →
     (current_loop (env (boot thread_with_closed_loop)) = None ∨
      ∃ old, current_loop (env (boot thread_with_closed_loop)) = Some old ∧
             is_closed (env (boot thread_with_closed_loop)) old = true) →
     (loop ∉ dom (loops (env (boot thread_with_closed_loop)))) ∧
     current_loop (env w') = Some loop).
Proof.
  apply (get_or_create_event_loop_open (boot thread_with_closed_loop)).
  simpl. exact thread_with_closed_loop_wf.
Defined.

Example get_or_create_replaces_closed_loop :
  fst (get_or_create_event_loop (boot thread_with_closed_loop)) = Ret 1%nat ∧
  current_loop (env (snd (get_or_create_event_loop (boot thread_with_closed_loop))))
  = Some 1%nat.
Proof. vm_compute. done. Qed.

Example get_or_create_in_worker_thread :
  fst (get_or_create_event_loop (boot fresh_worker_thread)) = Ret 0%nat.
Proof. vm_compute. done. Qed.

(** C8. [create_task_if_loop_running] returns [None], and does not raise,
    when no loop is running in the calling context; inside a running loop
    it returns a new task for the coroutine, and awaiting that task gives
    the coroutine's outcome. *)
Theorem create_task_if_loop_running_spec (coro : coroutine)
    (w : world asyncio_state) :
  asyncio_wf (env w) →
  (running_loop (env w) = None →
     ∃ w', create_task_if_loop_running coro w = (Ret None, w') ∧
           env w' = env w) ∧
  (∀ loop, running_loop (env w) = Some loop →
     ∃ task w',
       create_task_if_loop_running coro w = (Ret (Some task), w') ∧
       (task ∉ dom (tasks (env w))) ∧
       tasks (env w') !! task = Some (loop, coro) ∧
       await_task (env w') task = Some (outcome coro)).
Proof.
  intros [Hrun _]. unfold create_task_if_loop_running, get_running_loop. split.
  - intros ->. simpl. eexists. split; reflexivity.
  - intros loop Hl. rewrite Hl. unfold create_task.
    assert (is_closed (env w) loop = false) as ->.
    { unfold is_closed. rewrite (Hrun loop Hl). by apply bool_decide_eq_false. }
    eexists _, _. split; [reflexivity|]. simpl.
    split; [apply is_fresh|].
    unfold await_task. simpl. rewrite lookup_insert_eq. done.
Qed.

(** [test_create_task_if_loop_running]: called from inside a running loop. *)
Definition task_func : coroutine := Coroutine (1 # 100) (Ret (VStr "task_result")).

Lemma create_task_if_loop_running_spec_witness :
  (running_loop (env (boot inside_running_loop)) = None →
     ∃ w', create_task_if_loop_running task_func (boot inside_running_loop)
           = (Ret None, w') ∧
           env w' = env (boot inside_running_loop)) ∧
  (∀ loop, running_loop (env (boot inside_running_loop)) = Some loop →
     ∃ task w',
       create_task_if_loop_running task_func (boot inside_running_loop)
       = (Ret (Some task), w') ∧
       (task ∉ dom (tasks (env (boot inside_running_loop)))) ∧
       tasks (env w') !! task = Some (loop, task_func) ∧
       await_task (env w') task = Some (outcome task_func)).
Proof.
  apply (create_task_if_loop_running_spec task_func (boot inside_running_loop)).
  simpl. exact inside_running_loop_wf.
Defined.

Example test_create_task_if_loop_running :
  let out := create_task_if_loop_running task_func (boot inside_running_loop) in
  fst out = Ret (Some 0%nat) ∧
  await_task (env (snd out)) 0%nat = Some (Ret (VStr "task_result")).
Proof. vm_compute. done. Qed.

Example test_create_task_no_loop :
  let out := create_task_if_loop_running task_func (boot fresh_worker_thread) in
  fst out = Ret None ∧ logs (snd out) = [LogNoLoopDebug].
Proof. vm_compute. done. Qed.

End AsyncUtils.

(* ===================================================================== *)
(** ** The controller lifecycle                                           *)
(* ===================================================================== *)

(** [mycodo/abstract_base_controller.py] and
    [mycodo/controllers/base_controller.py] are not among the sources; only
    their tests are.  The lifecycle below follows the specification's
    state machine, and the tests are embedded as checks on it. *)

Module Controllers.
Import AsyncUtils.

Inductive lifecycle : Type :=
| Uninitialized | Initializing | Running | Stopping | Stopped.

#[global] Instance lifecycle_eq_dec : EqDecision lifecycle.
Proof. solve_decision. Defined.

(** Modelled from the spec: the Controller record of the data model
    (the controller classes themselves are missing).  [user] holds the
    concrete controller's own attributes; [cleanup_calls] and [visited]
    are ghost fields recording how often the cleanup step ran and which
    lifecycle states were entered, oldest first. *)
Record controller (U : Type) : Type := Controller {
  unique_id : string;
  lifecycle_state : lifecycle;
  initialized_flag : bool;
  running_flag : bool;
  iteration_count : nat;
  user : U;
  cleanup_calls : nat;
  visited : list lifecycle
}.
Arguments Controller {U}.
Arguments unique_id {U}.
Arguments lifecycle_state {U}.
Arguments initialized_flag {U}.
Arguments running_flag {U}.
Arguments iteration_count {U}.
Arguments user {U}.
Arguments cleanup_calls {U}.
Arguments visited {U}.

(** A step supplied by the concrete controller.  It sees and may change
    [running_flag] and the controller's own attributes, nothing else: the
    lifecycle fields belong to the driver. *)
Definition step (U : Type) : Type := bool * U → result value * (bool * U).

(** What is reported to the owner of a controller by [start]. *)
Inductive start_report : Type :=
| Started
| AlreadyStarted
| InitializationFailed (e : exn).

Section Lifecycle.
Context {U : Type}.
Variable lateness : nat → Q.
Variables initialize_step loop_step finally_step : step U.

(** Modelled from the spec: construction of a controller (Uninitialized,
    nothing run yet). *)
Definition new_controller (id : string) (running : bool) (u : U) : controller U :=
  Controller id Uninitialized false running 0 u 0 [].

Definition run_step (f : step U) (c : controller U) : result value * controller U :=
  let '(r, (running', u')) := f (running_flag c, user c) in
  (r, Controller (unique_id c) (lifecycle_state c) (initialized_flag c) running'
                 (iteration_count c) u' (cleanup_calls c) (visited c)).

Definition enter (s : lifecycle) (c : controller U) : controller U :=
  Controller (unique_id c) s (initialized_flag c) (running_flag c)
             (iteration_count c) (user c) (cleanup_calls c) (visited c ++ [s]).

Definition set_initialized (c : controller U) : controller U :=
  Controller (unique_id c) (lifecycle_state c) true (running_flag c)
             (iteration_count c) (user c) (cleanup_calls c) (visited c).

Definition set_iteration_count (n : nat) (c : controller U) : controller U :=
  Controller (unique_id c) (lifecycle_state c) (initialized_flag c) (running_flag c)
             n (user c) (cleanup_calls c) (visited c).

Definition count_cleanup (c : controller U) : controller U :=
  Controller (unique_id c) (lifecycle_state c) (initialized_flag c) (running_flag c)
             (iteration_count c) (user c) (S (cleanup_calls c)) (visited c).

Definition on_env (f : controller U → controller U) (w : world (controller U))
  : world (controller U) := with_env w (f (env w)).

(** Modelled from the spec: [try_initialize(tries, wait)], missing from
    the sources.  The initialize step is wrapped by a bounded-retry policy:
    up to [tries] attempts, a constant delay [wait] between them; success
    sets [initialized_flag], exhaustion is a reported failure. *)
Definition try_initialize (tries : Z) (wait : Q) : M (controller U) start_report :=
  fun w =>
  match async_retry lateness (run_step initialize_step) tries wait 1 wait
                    [Exception] w with
  | (Ret _, w1) => (Ret Started, on_env set_initialized w1)
  | (Raise e, w1) =>
      (Ret (InitializationFailed e), emit (LogInitializationFailed e) w1)
  end.

(** Modelled from the spec: [start()], missing from the sources.
    Uninitialized moves to Initializing; success leads to Running with
    [iteration_count = 0], exhausted retries lead to Stopped and a report
    to the owner.  Starting again is a no-op. *)
Definition start (tries : Z) (wait : Q) : M (controller U) start_report :=
  fun w =>
  match lifecycle_state (env w) with
  | Uninitialized =>
      match try_initialize tries wait (on_env (enter Initializing) w) with
      | (Ret Started, w1) =>
          (Ret Started, on_env (enter Running) (on_env (set_iteration_count 0) w1))
      | (Ret (InitializationFailed e), w1) =>
          (Ret (InitializationFailed e), on_env (enter Stopped) w1)
      | (Ret AlreadyStarted, w1) => (Ret AlreadyStarted, w1)
      | (Raise e, w1) =>
          (Ret (InitializationFailed e), on_env (enter Stopped) w1)
      end
  | _ => (Ret AlreadyStarted, w)
  end.

(** Modelled from the spec: one iteration of the Running state, missing
    from the sources.  The loop step is invoked; an error it raises is
    caught and logged; [iteration_count] grows by one either way. *)
Definition loop_iteration (w : world (controller U)) : world (controller U) :=
  let '(r, c') := run_step loop_step (env w) in
  let w1 := with_env w (set_iteration_count (S (iteration_count c')) c') in
  match r with
  | Ret _ => w1
  | Raise e => emit (LogLoopIterationError e) w1
  end.

(** Modelled from the spec: the Running state, iterating while
    [running_flag] is true.  The loop need not end; [fuel] bounds the
    iterations, [None] meaning the bound was hit. *)
Fixpoint run_loop (fuel : nat) (w : world (controller U))
  : option (world (controller U)) :=
  if running_flag (env w) then
    match fuel with
    | O => None
    | S fuel' => run_loop fuel' (loop_iteration w)
    end
  else Some w.

(** Modelled from the spec: Stopping, then Stopped.  The cleanup step runs
    once; an error it raises is logged and goes no further. *)
Definition stop_and_cleanup (w : world (controller U)) : world (controller U) :=
  let w1 := on_env (enter Stopping) w in
  let '(r, c') := run_step finally_step (env w1) in
  let w2 := with_env w1 (count_cleanup c') in
  let w3 := match r with
            | Ret _ => w2
            | Raise e => emit (LogCleanupError e) w2
            end in
  on_env (enter Stopped) w3.

(** Modelled from the spec: the whole life of a controller, from [start]
    to Stopped (the [async_run] the tests call). *)
Definition async_run (fuel : nat) (tries : Z) (wait : Q) (w : world (controller U))
  : option (start_report * world (controller U)) :=
  match start tries wait w with
  | (Ret Started, w1) =>
      match run_loop fuel w1 with
      | Some w2 => Some (Started, stop_and_cleanup w2)
      | None => None
      end
  | (Ret r, w1) => Some (r, w1)
  | (Raise e, w1) => Some (InitializationFailed e, w1)
  end.

(** *** The run loop *)

Lemma run_step_lifecycle (f : step U) (c : controller U) :
  let c' := snd (run_step f c) in
  unique_id c' = unique_id c ∧ lifecycle_state c' = lifecycle_state c ∧
  initialized_flag c' = initialized_flag c ∧
  iteration_count c' = iteration_count c ∧
  cleanup_calls c' = cleanup_calls c ∧ visited c' = visited c.
Proof.
  unfold run_step. destruct (f (running_flag c, user c)) as [r [b u]]. by simpl.
Qed.

Lemma run_loop_step (fuel : nat) (w : world (controller U)) :
  running_flag (env w) = true →
  run_loop (S fuel) w = run_loop fuel (loop_iteration w).
Proof. intros H. simpl. by rewrite H. Qed.

Lemma run_loop_stop (fuel : nat) (w : world (controller U)) :
  running_flag (env w) = false → run_loop fuel w = Some w.
Proof. intros H. destruct fuel; simpl; by rewrite H. Qed.

Lemma stop_and_cleanup_spec (w : world (controller U)) :
  let final := stop_and_cleanup w in
  lifecycle_state (env final) = Stopped ∧
  iteration_count (env final) = iteration_count (env w) ∧
  cleanup_calls (env final) = S (cleanup_calls (env w)) ∧
  visited (env final) = visited (env w) ++ [Stopping; Stopped] ∧
  (∀ r, r ∈ logs w → r ∈ logs final).
Proof.
  unfold stop_and_cleanup, run_step. simpl.
  destruct (finally_step (running_flag (env w), user (env w))) as [[v|e] [b u]];
    simpl; rewrite <- ?app_assoc; split_and!; try done.
  intros r Hr. apply elem_of_app. by left.
Qed.

(** C5. A controller that starts successfully, whose loop step raises on
    iteration 1 and clears [running_flag] on iteration 2: the error of
    iteration 1 is caught and logged with the controller still Running, the
    loop goes on, and the controller ends Stopped with
    [iteration_count = 2] and the cleanup step run exactly once. *)
Theorem async_run_isolates_failing_iteration (fuel : nat) (tries : Z) (wait : Q)
    (w : world (controller U)) (e : exn) (v0 v : value) (u0 u1 u2 : U) :
  lifecycle_state (env w) = Uninitialized →
  running_flag (env w) = true →
  cleanup_calls (env w) = 0%nat →
  1 ≤ tries →
  (2 ≤ fuel)%nat →
  initialize_step (true, user (env w)) = (Ret v0, (true, u0)) →
  loop_step (true, u0) = (Raise e, (true, u1)) →
  loop_step (true, u1) = (Ret v, (false, u2)) →
  ∃ running final,
    start tries wait w = (Ret Started, running) ∧
    lifecycle_state (env (loop_iteration running)) = Running ∧
    running_flag (env (loop_iteration running)) = true ∧
    iteration_count (env (loop_iteration running)) = 1%nat ∧
    last (logs (loop_iteration running)) = Some (LogLoopIterationError e) ∧
    async_run fuel tries wait w = Some (Started, final) ∧
    lifecycle_state (env final) = Stopped ∧
    iteration_count (env final) = 2%nat ∧
    cleanup_calls (env final) = 1%nat ∧
    visited (env final)
    = visited (env w) ++ [Initializing; Running; Stopping; Stopped] ∧
    LogLoopIterationError e ∈ logs final.
Proof.
  intros Hs Hr Hc Ht Hf Hinit H1 H2.
  destruct fuel as [|[|fuel]]; try lia.
  assert (∃ running,
            start tries wait w = (Ret Started, running) ∧
            env running = Controller (unique_id (env w)) Running true true 0 u0 0
                            (visited (env w) ++ [Initializing; Running]))
    as (running & Hstart & Henv).
  { unfold start. rewrite Hs. unfold try_initialize.
    erewrite async_retry_first_try; [|done|]; last first.
    { simpl. unfold run_step. simpl. rewrite Hr, Hinit. reflexivity. }
    eexists. split; [reflexivity|]. simpl. rewrite Hc.
    unfold enter, set_iteration_count, set_initialized. simpl.
    by rewrite <- app_assoc. }
  assert (loop_iteration running
          = emit (LogLoopIterationError e)
              (with_env running
                 (Controller (unique_id (env w)) Running true true 1 u1 0
                    (visited (env w) ++ [Initializing; Running])))) as Hl1.
  { unfold loop_iteration, run_step. rewrite Henv. simpl. by rewrite H1. }
  set (w1 := loop_iteration running) in *.
  assert (loop_iteration w1
          = with_env w1
              (Controller (unique_id (env w)) Running true false 2 u2 0
                 (visited (env w) ++ [Initializing; Running]))) as Hl2.
  { unfold loop_iteration, run_step. rewrite Hl1. simpl. by rewrite H2. }
  assert (run_loop (S (S fuel)) running = Some (loop_iteration w1)) as Hloop.
  { assert (running_flag (env w1) = true) as R1 by (by rewrite Hl1).
    assert (running_flag (env (loop_iteration w1)) = false) as R2 by (by rewrite Hl2).
    rewrite run_loop_step by (by rewrite Henv). fold w1.
    rewrite run_loop_step by done. by apply run_loop_stop. }
  destruct (stop_and_cleanup_spec (loop_iteration w1)) as (E1 & E2 & E3 & E4 & E5).
  exists running, (stop_and_cleanup (loop_iteration w1)).
  fold w1. split_and!; try done.
  - by rewrite Hl1.
  - by rewrite Hl1.
  - by rewrite Hl1.
  - rewrite Hl1. simpl. by rewrite last_snoc.
  - unfold async_run. by rewrite Hstart, Hloop.
  - rewrite E2, Hl2. done.
  - rewrite E3, Hl2. done.
  - rewrite E4, Hl2. simpl. by rewrite <- app_assoc.
  - apply E5. rewrite Hl2, Hl1. simpl. apply elem_of_app. right.
    by apply list_elem_of_singleton.
Qed.

End Lifecycle.

(** *** Initialization with retries *)

(** An initializer that fails, with an ordinary exception, whenever it is
    called. *)
Definition always_raises {U : Type} (f : step U) : Prop :=
  ∀ s, ∃ e s', f s = (Raise e, s') ∧ isinstance e [Exception] = true.

Lemma env_after_lifecycle {U : Type} (f : step U) (k : nat) :
  ∀ c : controller U,
    let c' := env_after (run_step f) k c in
    lifecycle_state c' = lifecycle_state c ∧
    initialized_flag c' = initialized_flag c ∧
    visited c' = visited c.
Proof.
  induction k as [|k IH]; intros c; simpl; [done|].
  destruct (IH (snd (run_step f c))) as (H1 & H2 & H3).
  destruct (run_step_lifecycle f c) as (_ & L1 & L2 & _ & _ & L3).
  simpl in *. split_and!; congruence.
Qed.

Lemma always_raises_fails_retryably {U : Type} (f : step U) :
  always_raises f →
  ∀ (k : nat) (c : controller U), fails_retryably (run_step f) [Exception] k c.
Proof.
  intros Hf. induction k as [|k IH]; intros c; simpl; [done|].
  unfold run_step at 1.
  destruct (Hf (running_flag c, user c)) as (e & [b u] & -> & Hi).
  split; [exact Hi | apply IH].
Qed.

Lemma always_raises_run_step {U : Type} (f : step U) (c : controller U) :
  always_raises f → ∃ e c', run_step f c = (Raise e, c').
Proof.
  intros Hf. unfold run_step.
  destruct (Hf (running_flag c, user c)) as (e & [b u] & -> & _). eauto.
Qed.

(** C6. [try_initialize] with [tries = 3] against an initializer that
    fails twice and then succeeds invokes it exactly 3 times and leaves
    [initialized_flag] true.  With [tries = 2] against an initializer that
    always fails, it is invoked exactly 2 times, the failure is handed to
    the owner as a report (nothing is raised), and the controller goes to
    Stopped without ever being Running. *)
Theorem try_initialize_retries_then_reports {U : Type} (lateness : nat → Q)
    (flaky failing loop_step finally_step : step U) (wait : Q) (fuel : nat)
    (w1 w2 : world (controller U)) (v : value) (c' : controller U) :
  fails_retryably (run_step flaky) [Exception] 2 (env w1) →
  run_step flaky (env_after (run_step flaky) 2 (env w1)) = (Ret v, c') →
  always_raises failing →
  lifecycle_state (env w2) = Uninitialized →
  Running ∉ visited (env w2) →
  (let out := try_initialize lateness flaky 3 wait w1 in
   fst out = Ret Started ∧
   calls (snd out) = (calls w1 + 3)%nat ∧
   initialized_flag (env (snd out)) = true) ∧
  (∃ x final,
     async_run lateness failing loop_step finally_step fuel 2 wait w2
     = Some (InitializationFailed x, final) ∧
     calls final = (calls w2 + 2)%nat ∧
     lifecycle_state (env final) = Stopped ∧
     (Running ∉ visited (env final)) ∧
     initialized_flag (env final) = initialized_flag (env w2) ∧
     LogInitializationFailed x ∈ logs final).
Proof.
  intros Hflaky Hok Hfail Hs Hv. split.
  - pose proof (retry_attempts_settles lateness (run_step flaky) 3 1 wait
                  [Exception] 2 3 0 wait None w1 (Ret v) c') as H.
    destruct H as (H1 & H2 & H3 & _); try done; try lia.
    unfold try_initialize, async_retry.
    change (seqZ 0 3) with (seqZ 0 (Z.of_nat 3)).
    destruct (retry_attempts _ _ _ _ _ _ _ _ _ w1) as [r wout].
    simpl in H1, H2, H3. subst r. simpl. split_and!; try done.
  - set (w0 := on_env (enter Initializing) w2).
    destruct (always_raises_run_step failing
                (env_after (run_step failing) 1 (env w0)) Hfail) as (x & e' & Hx).
    pose proof (retry_attempts_exhausts lateness (run_step failing) 2 1 wait
                  [Exception] 1 0 wait None w0 x e') as H.
    destruct H as (H1 & H2 & H3 & _ & _); try done.
    { by apply always_raises_fails_retryably. }
    destruct (env_after_lifecycle failing 2 (env w0)) as (L1 & L2 & L3).
    assert (e' = env_after (run_step failing) 2 (env w0)) as He'.
    { simpl in Hx |- *. by rewrite Hx. }
    rewrite <- He' in L1, L2, L3.
    unfold async_run, start. rewrite Hs. fold w0.
    unfold try_initialize, async_retry.
    change (seqZ 0 2) with (seqZ 0 (Z.of_nat 2)).
    destruct (retry_attempts _ _ _ _ _ _ _ _ _ w0) as [r wout].
    simpl in H1, H2, H3. subst r. simpl.
    exists x, (on_env (enter Stopped) (emit (LogInitializationFailed x) wout)).
    split_and!; try done.
    + simpl. rewrite H2, L3. simpl. rewrite <- app_assoc. simpl.
      rewrite elem_of_app. intros [Hin | Hin]; [done|].
      apply list_elem_of_In in Hin. simpl in Hin. by destruct Hin as [?|[?|?]].
    + simpl. by rewrite H2, L2.
    + simpl. apply elem_of_app. right. by apply list_elem_of_singleton.
Qed.

(** *** The controllers of [tests/software_tests/test_async_controllers.py] *)

Definition pass {U : Type} : step U := fun s => (Ret VNone, s).

(** [test_async_run_handles_exceptions]: the controller's own attribute is
    [loop_count]; [async_loop] raises on its first call and clears
    [running] on its second. *)
Definition handles_exceptions_loop : step nat :=
  fun '(running, loop_count) =>
    let loop_count := S loop_count in
    if (loop_count =? 1)%nat then
      (Raise (Exn ValueError "Test exception"), (running, loop_count))
    else (Ret VNone, (false, loop_count)).

Definition test_async_run_handles_exceptions
  : option (start_report * world (controller nat)) :=
  async_run late_by_1ms pass handles_exceptions_loop pass 10 3 (1 # 100)
            (boot (new_controller "test-exception" true 0%nat)).

Example test_async_run_handles_exceptions_passes :
  (λ out, user (env (snd out))) <$> test_async_run_handles_exceptions = Some 2%nat.
Proof. vm_compute. done. Qed.

(** [test_async_try_initialize_with_retries]: [call_count] is the
    attribute; the initializer fails until its third call. *)
Definition failing_init : step nat :=
  fun '(running, call_count) =>
    let call_count := S call_count in
    if (call_count <? 3)%nat then
      (Raise (Exn ValueError "Initialization failed"), (running, call_count))
    else (Ret VNone, (running, call_count)).

(** [test_async_try_initialize_max_retries_exceeded] *)
Definition always_fail : step nat :=
  fun s => (Raise (Exn ValueError "Always fails"), s).

Example test_async_try_initialize_with_retries :
  let out := try_initialize late_by_1ms failing_init 3 (1 # 100)
               (boot (new_controller "test-retry-fail" false 0%nat)) in
  user (env (snd out)) = 3%nat ∧ initialized_flag (env (snd out)) = true.
Proof. vm_compute. done. Qed.

Example test_async_try_initialize_max_retries_exceeded :
  let out := try_initialize late_by_1ms always_fail 2 (1 # 100)
               (boot (new_controller "test-max-retry" false 0%nat)) in
  fst out = Ret (InitializationFailed (Exn ValueError "Always fails")) ∧
  calls (snd out) = 2%nat ∧ initialized_flag (env (snd out)) = false.
Proof. vm_compute. done. Qed.

(** A controller started twice runs its initializer once. *)
Example start_is_idempotent :
  let w1 := snd (start late_by_1ms failing_init 3 (1 # 100)
                   (boot (new_controller "twice" true 0%nat))) in
  fst (start late_by_1ms failing_init 3 (1 # 100) w1) = Ret AlreadyStarted ∧
  calls (snd (start late_by_1ms failing_init 3 (1 # 100) w1)) = calls w1.
Proof. vm_compute. done. Qed.

Lemma always_fail_always_raises : always_raises always_fail.
Proof. intros s. eexists _, _. split; reflexivity. Qed.

Lemma async_run_isolates_failing_iteration_witness :
  let w := boot (new_controller "test-exception" true 0%nat) in
  ∃ running final,
    start late_by_1ms pass 3 (1 # 100) w = (Ret Started, running) ∧
    lifecycle_state (env (loop_iteration handles_exceptions_loop running)) = Running ∧
    running_flag (env (loop_iteration handles_exceptions_loop running)) = true ∧
    iteration_count (env (loop_iteration handles_exceptions_loop running)) = 1%nat ∧
    last (logs (loop_iteration handles_exceptions_loop running))
    = Some (LogLoopIterationError (Exn ValueError "Test exception")) ∧
    async_run late_by_1ms pass handles_exceptions_loop pass 10 3 (1 # 100) w
    = Some (Started, final) ∧
    lifecycle_state (env final) = Stopped ∧
    iteration_count (env final) = 2%nat ∧
    cleanup_calls (env final) = 1%nat ∧
    visited (env final)
    = visited (env w) ++ [Initializing; Running; Stopping; Stopped] ∧
    LogLoopIterationError (Exn ValueError "Test exception") ∈ logs final.
Proof.
  apply (async_run_isolates_failing_iteration late_by_1ms pass
           handles_exceptions_loop pass 10 3 (1 # 100)
           (boot (new_controller "test-exception" true 0%nat))
           (Exn ValueError "Test exception") VNone VNone 0%nat 1%nat 2%nat);
    try reflexivity; lia.
Defined.

Lemma try_initialize_retries_then_reports_witness :
  let w1 := boot (new_controller "test-retry-fail" false 0%nat) in
  let w2 := boot (new_controller "test-max-retry" false 0%nat) in
  (let out := try_initialize late_by_1ms failing_init 3 (1 # 100) w1 in
   fst out = Ret Started ∧
   calls (snd out) = (calls w1 + 3)%nat ∧
   initialized_flag (env (snd out)) = true) ∧
  (∃ x final,
     async_run late_by_1ms always_fail handles_exceptions_loop pass 10 2 (1 # 100) w2
     = Some (InitializationFailed x, final) ∧
     calls final = (calls w2 + 2)%nat ∧
     lifecycle_state (env final) = Stopped ∧
     (Running ∉ visited (env final)) ∧
     initialized_flag (env final) = initialized_flag (env w2) ∧
     LogInitializationFailed x ∈ logs final).
Proof.
  apply (try_initialize_retries_then_reports late_by_1ms failing_init always_fail
           handles_exceptions_loop pass (1 # 100) 10
           (boot (new_controller "test-retry-fail" false 0%nat))
           (boot (new_controller "test-max-retry" false 0%nat))
           VNone (new_controller "test-retry-fail" false 3%nat)).
  - simpl. repeat split.
  - reflexivity.
  - exact always_fail_always_raises.
  - reflexivity.
  - simpl. apply not_elem_of_nil.
Defined.

End Controllers.

(* ===================================================================== *)
(** ** [examples/async_sensor_example.py]                                 *)
(* ===================================================================== *)

Module AsyncSensorExample.

(** The attributes of [AsyncTemperatureSensor] (its logger apart). *)
Record sensor : Type := Sensor {
  sensor_id : string;
  reading_count : Z;
  is_connected : bool;
  is_async_initialized : bool
}.

(** [AsyncTemperatureSensor.__init__] *)
Definition new_sensor (id : string) : sensor := Sensor id 0 false false.

(** [AsyncTemperatureSensor.async_health_check] *)
Definition async_health_check (self : sensor) : sensor * gmap string value :=
  (self,
   {[ "healthy" := VBool (is_connected self);
      "message" := VStr (if is_connected self then "Sensor is running"
                         else "Sensor not connected");
      "sensor_id" := VStr (sensor_id self);
      "connected" := VBool (is_connected self);
      "reading_count" := VInt (reading_count self) ]}).

(** [AsyncTemperatureSensor.async_stop] *)
Definition async_stop (self : sensor) : sensor :=
  Sensor (sensor_id self) (reading_count self) false (is_async_initialized self).

(** What [async_initialize] leaves behind once the connection succeeded. *)
Definition connected (self : sensor) : sensor :=
  Sensor (sensor_id self) (reading_count self) true true.

Example health_after_initialize :
  snd (async_health_check (connected (new_sensor "temp-001"))) !! "healthy"
  = Some (VBool true).
Proof. vm_compute. done. Qed.

(** Once stopped the sensor stays initialized but reports unhealthy. *)
Example health_after_stop :
  let s := async_stop (connected (new_sensor "temp-001")) in
  is_async_initialized s = true ∧
  snd (async_health_check s) !! "healthy" = Some (VBool false) ∧
  snd (async_health_check s) !! "message" = Some (VStr "Sensor not connected").
Proof. vm_compute. done. Qed.

Lemma sensor_health_report (self : sensor) :
  fst (async_health_check self) = self ∧
  snd (async_health_check self) !! "healthy" = Some (VBool (is_connected self)) ∧
  ∃ m, snd (async_health_check self) !! "message" = Some (VStr m).
Proof.
  unfold async_health_check. simpl. split; [done|]. split.
  - by simplify_map_eq.
  - eexists. by simplify_map_eq.
Qed.

End AsyncSensorExample.

(* ===================================================================== *)
(** ** Health reporting                                                   *)
(* ===================================================================== *)

Module HealthCheck.
Import Controllers.

(** Modelled from the spec: [async_health_check] / [health_check] of the
    controller base class, missing from the sources.  The report is
    produced on demand from the controller and carries [healthy],
    [message] and the identity.  How the base class arrives at its verdict
    is what the sources leave open, so the verdict is a parameter here; a
    concrete controller overrides it. *)
Definition async_health_check {U : Type} (verdict : controller U → bool)
    (c : controller U) : controller U * gmap string value :=
  (c,
   {[ "healthy" := VBool (verdict c);
      "message" := VStr (if verdict c then "Controller is healthy"
                         else "Controller is not healthy");
      "unique_id" := VStr (unique_id c) ]}).

(** Modelled from the spec: the default verdict in the specification's
    words, [healthy = initialized_flag and running_flag]. *)
Definition initialized_and_running {U : Type} (c : controller U) : bool :=
  initialized_flag c && running_flag c.

(** [test_async_health_check]: on a controller that was only constructed,
    the report has the keys [healthy] and [message], and [healthy] is
    [True].  [running] is the value of the running flag that construction
    leaves, which the sources do not show. *)
Definition test_async_health_check (verdict : controller unit → bool)
    (running : bool) : bool :=
  let controller := new_controller "test-health" running tt in
  let health := snd (async_health_check verdict controller) in
  bool_decide (is_Some (health !! "healthy")) &&
  bool_decide (is_Some (health !! "message")) &&
  bool_decide (health !! "healthy" = Some (VBool true)).

(** [test_async_start_calls_initialize], first assertion: construction
    leaves the controller not initialized. *)
Example new_controller_not_initialized (running : bool) :
  initialized_flag (new_controller "test-456" running tt) = false.
Proof. reflexivity. Qed.

(** The default verdict being [initialized_flag and running_flag], as the
    specification words it. *)
Definition default_as_claimed (verdict : controller unit → bool) : Prop :=
  ∀ c, verdict c = initialized_and_running c.

(** No default of that form passes [test_async_health_check]: the test
    requires [healthy] on a controller that has not been initialized. *)
Lemma health_default_fails_repository_test :
  ¬ ∃ verdict running,
      default_as_claimed verdict ∧ test_async_health_check verdict running = true.
Proof.
  intros (verdict & running & Hd & Ht).
  unfold test_async_health_check in Ht.
  apply andb_true_iff in Ht as [_ Ht]. apply bool_decide_eq_true in Ht.
  simpl in Ht. rewrite lookup_insert_eq in Ht. injection Ht as Ht.
  rewrite Hd in Ht. by destruct running.
Qed.

End HealthCheck.

(* ===================================================================== *)
(** ** Further properties of [async_retry]                                *)
(* ===================================================================== *)

Module RetryFacts.
Import AsyncUtils.

Section Facts.
Context {Env : Type}.
Variable lateness : nat → Q.
Variable func : Env → result value * Env.
Variable max_retries : Z.
Variables initial_delay backoff_factor max_delay : Q.
Variable exceptions : list exc_class.

Let retry := retry_attempts lateness func max_retries backoff_factor max_delay exceptions.
Let run := async_retry lateness func max_retries initial_delay backoff_factor
                       max_delay exceptions.
Let delays := backoff_delays backoff_factor max_delay.

(** Whatever the operation does: a loop over the attempts [a .. a+m-1]
    (with [a + m = max_retries], [m >= 1]) makes [k + 1] invocations for
    some [k < m], and sleeps after each of them but the last, with the
    delays of the backoff schedule. *)
Lemma retry_attempts_shape (m : nat) :
  ∀ (a : Z) (delay : Q) (last_exception : option exn) (w : world Env),
    a + Z.of_nat (S m) = max_retries →
    let out := retry (seqZ a (Z.of_nat (S m))) delay last_exception w in
    ∃ k : nat, (k ≤ m)%nat ∧
      calls (snd out) = (calls w + S k)%nat ∧
      slept (snd out) = slept w ++ delays k delay.
Proof.
  unfold retry, delays.
  induction m as [|m IH]; intros a delay last_exception w Ha.
  - rewrite seqZ_succ. simpl. unfold call_func.
    destruct (func (env w)) as [[v|x] e1]; simpl.
    + exists 0%nat. simpl. rewrite app_nil_r. split_and!; [lia | lia | done].
    + destruct (isinstance x exceptions); simpl.
      * assert ((a <? max_retries - 1) = false) as -> by (apply Z.ltb_ge; lia).
        simpl. exists 0%nat. simpl. rewrite app_nil_r. split_and!; [lia | lia | done].
      * exists 0%nat. simpl. rewrite app_nil_r. split_and!; [lia | lia | done].
  - rewrite seqZ_succ.
    change (retry_attempts lateness func max_retries backoff_factor max_delay
              exceptions (a :: seqZ (a + 1) (Z.of_nat (S m))) delay last_exception w)
      with (match call_func func w with
            | (Ret v, w1) => (Ret v, w1)
            | (Raise e, w1) =>
                if isinstance e exceptions then
                  if a <? max_retries - 1 then
                    retry_attempts lateness func max_retries backoff_factor max_delay
                      exceptions (seqZ (a + 1) (Z.of_nat (S m)))
                      (Py.min (delay * backoff_factor) max_delay) (Some e)
                      (asyncio_sleep lateness delay
                         (emit (LogRetryWarning (a + 1) max_retries e delay) w1))
                  else
                    retry_attempts lateness func max_retries backoff_factor max_delay
                      exceptions (seqZ (a + 1) (Z.of_nat (S m))) delay (Some e)
                      (emit (LogRetryError max_retries e) w1)
                else (Raise e, w1)
            end).
    unfold call_func.
    destruct (func (env w)) as [[v|x] e1]; simpl.
    + exists 0%nat. simpl. rewrite app_nil_r. split_and!; [lia | lia | done].
    + destruct (isinstance x exceptions); simpl.
      * assert ((a <? max_retries - 1) = true) as -> by (apply Z.ltb_lt; lia).
        set (w3 := asyncio_sleep lateness delay _).
        destruct (IH (a + 1) (Py.min (delay * backoff_factor) max_delay) (Some x) w3)
          as (k & Hk & Hc & Hs); [lia|].
        exists (S k). split_and!; [lia | |].
        -- rewrite Hc. simpl. lia.
        -- rewrite Hs. simpl. by rewrite <- app_assoc.
      * exists 0%nat. simpl. rewrite app_nil_r. split_and!; [lia | lia | done].
Qed.

(** The same for a whole run of [async_retry] that is allowed an attempt. *)
Lemma async_retry_shape (w : world Env) :
  1 ≤ max_retries →
  ∃ k : nat, (Z.of_nat k < max_retries) ∧
    calls (snd (run w)) = (calls w + S k)%nat ∧
    slept (snd (run w)) = slept w ++ delays k initial_delay.
Proof.
  intros Hn. unfold run, async_retry.
  destruct (Z.to_nat max_retries) as [|m] eqn:Em; [lia|].
  assert (max_retries = Z.of_nat (S m)) as Hm by lia.
  destruct (retry_attempts_shape m 0 initial_delay None w) as (k & Hk & Hc & Hs);
    [lia|].
  unfold retry in Hc, Hs. rewrite <- Hm in Hc, Hs.
  exists k. split_and!; [lia | done | done].
Qed.

Lemma delays_capped (k : nat) :
  ∀ (d0 : Q) (i : nat) (d : Q),
    delays k d0 !! S i = Some d → (d <= max_delay)%Q.
Proof.
  unfold delays.
  induction k as [|k IH]; intros d0 i d Hd; simpl in Hd; [done|].
  destruct i as [|i].
  - destruct k as [|k]; simpl in Hd; [done|]. injection Hd as <-.
    unfold Py.min. destruct (Qle_bool (d0 * backoff_factor) max_delay) eqn:E.
    + by apply Qle_bool_iff.
    + apply Qle_refl.
  - by eapply IH.
Qed.

Lemma delays_nondecreasing (k : nat) :
  (1 <= backoff_factor)%Q →
  ∀ (d0 : Q) (i : nat) (x y : Q),
    (0 <= d0)%Q → (d0 <= max_delay)%Q →
    delays k d0 !! i = Some x → delays k d0 !! S i = Some y →
    (x <= y)%Q ∧ (y <= max_delay)%Q.
Proof.
  intros Hf. unfold delays.
  induction k as [|k IH]; intros d0 i x y H0 Hm Hx Hy; simpl in Hx, Hy; [done|].
  assert (d0 <= Py.min (d0 * backoff_factor) max_delay)%Q as Hstep.
  { assert (0 <= d0 * (backoff_factor - 1))%Q as Hp
      by (apply Qmult_le_0_compat; lra).
    unfold Py.min. destruct (Qle_bool (d0 * backoff_factor) max_delay); [lra | done]. }
  assert (Py.min (d0 * backoff_factor) max_delay <= max_delay)%Q as Hcap.
  { unfold Py.min. destruct (Qle_bool (d0 * backoff_factor) max_delay) eqn:E.
    - by apply Qle_bool_iff.
    - apply Qle_refl. }
  destruct i as [|i].
  - simpl in Hx. injection Hx as <-.
    destruct k as [|k]; simpl in Hy; [done|]. injection Hy as <-. done.
  - simpl in Hx.
    apply (IH (Py.min (d0 * backoff_factor) max_delay) i);
      [lra | exact Hcap | exact Hx | exact Hy].
Qed.

(** The operation is never invoked more than [max_retries] times, whatever
    it returns or raises, and not at all when [max_retries <= 0]. *)
Theorem async_retry_invocations_bounded (w : world Env) :
  (calls (snd (run w)) ≤ calls w + Z.to_nat max_retries)%nat.
Proof.
  destruct (Z_le_gt_dec 1 max_retries) as [Hn | Hn].
  - destruct (async_retry_shape w Hn) as (k & Hk & Hc & _). rewrite Hc. lia.
  - unfold run, async_retry. rewrite seqZ_nil by lia. simpl. lia.
Qed.

(** With at least one attempt allowed, every invocation but the last is
    followed by exactly one sleep: the number of sleeps is the number of
    invocations minus one, for every operation and every way the run
    ends. *)
Theorem async_retry_sleeps_between_invocations (w : world Env) :
  1 ≤ max_retries →
  ∃ k : nat,
    calls (snd (run w)) = (calls w + (k + 1))%nat ∧
    length (slept (snd (run w))) = (length (slept w) + k)%nat.
Proof.
  intros Hn. destruct (async_retry_shape w Hn) as (k & Hk & Hc & Hs).
  exists k. split.
  - rewrite Hc. lia.
  - rewrite Hs, length_app. unfold delays. by rewrite backoff_delays_length.
Qed.


(** With no attempt allowed ([max_retries <= 0]) the operation is not
    invoked; the [raise last_exception] after the empty loop raises
    [None], which Python turns into a [TypeError]; nothing is logged and
    nothing is slept. *)
Theorem async_retry_no_attempts (w : world Env) :
  max_retries ≤ 0 →
  run w = (Raise (Exn TypeError "exceptions must derive from BaseException"), w).
Proof.
  intros Hn. unfold run, async_retry. by rewrite seqZ_nil by lia.
Qed.

(** [max_delay] caps every delay but the first: the first sleep of a
    run, when there is one, is [initial_delay] exactly as given, whether or
    not it exceeds the cap, and every later sleep is at most [max_delay]. *)
Theorem async_retry_delays_capped (w : world Env) :
  1 ≤ max_retries →
  (∀ d, slept (snd (run w)) !! length (slept w) = Some d → d = initial_delay) ∧
  (∀ i d, slept (snd (run w)) !! (length (slept w) + S i)%nat = Some d →
          (d <= max_delay)%Q).
Proof.
  intros Hn.
  destruct (async_retry_shape w Hn) as (k & _ & _ & Hs). rewrite Hs. split.
  - intros d Hd. rewrite lookup_app_r in Hd by lia.
    replace (length (slept w) - length (slept w))%nat with 0%nat in Hd by lia.
    unfold delays in Hd. by eapply backoff_delays_head.
  - intros i d Hd. rewrite lookup_app_r in Hd by lia.
    replace (length (slept w) + S i - length (slept w))%nat with (S i) in Hd by lia.
    by eapply delays_capped.
Qed.

(** With [backoff_factor >= 1] and [0 <= initial_delay <= max_delay] the
    delays of a run never decrease and never exceed [max_delay]. *)
Theorem async_retry_delays_nondecreasing (w : world Env) (i : nat) (x y : Q) :
  1 ≤ max_retries →
  (1 <= backoff_factor)%Q →
  (0 <= initial_delay)%Q →
  (initial_delay <= max_delay)%Q →
  slept (snd (run w)) !! (length (slept w) + i)%nat = Some x →
  slept (snd (run w)) !! (length (slept w) + S i)%nat = Some y →
  (x <= y)%Q ∧ (y <= max_delay)%Q.
Proof.
  intros Hn Hf H0 Hm Hx Hy.
  destruct (async_retry_shape w Hn) as (k & _ & _ & Hs).
  rewrite Hs in Hx, Hy. rewrite lookup_app_r in Hx, Hy by lia.
  replace (length (slept w) + i - length (slept w))%nat with i in Hx by lia.
  replace (length (slept w) + S i - length (slept w))%nat with (S i) in Hy by lia.
  by eapply (delays_nondecreasing k Hf initial_delay i).
Qed.

End Facts.


Lemma async_retry_sleeps_between_invocations_witness :
  ∃ k : nat,
    calls (snd test_retry_on_failure) = (0 + (k + 1))%nat ∧
    length (slept (snd test_retry_on_failure)) = (0 + k)%nat.
Proof.
  apply (async_retry_sleeps_between_invocations late_by_1ms async_mock 3 (1 # 100)
           2 60 [ValueError] (boot retry_on_failure_script)).
  lia.
Defined.


Lemma async_retry_no_attempts_witness :
  async_retry late_by_1ms always_fails 0 1 2 60 [Exception] (boot tt)
  = (Raise (Exn TypeError "exceptions must derive from BaseException"), boot tt).
Proof.
  apply (async_retry_no_attempts late_by_1ms always_fails 0 1 2 60 [Exception]
           (boot tt)).
  lia.
Defined.

(** [test_max_delay_cap]: the initial delay 1 is above the cap 1/10; the
    run sleeps 1 first and 1/10 next. *)
Lemma async_retry_delays_capped_witness :
  (slept (snd test_max_delay_cap) = [1; 1 # 10]%Q ∧ ¬ (1 <= 1 # 10)%Q) ∧
  (∀ d, slept (snd test_max_delay_cap) !! 0%nat = Some d → d = 1%Q) ∧
  (∀ i d, slept (snd test_max_delay_cap) !! (0 + S i)%nat = Some d →
          (d <= 1 # 10)%Q).
Proof.
  split; [split; [reflexivity | by vm_compute]|].
  apply (async_retry_delays_capped late_by_1ms async_mock 3 1 10 (1 # 10)
           [ValueError]
           (boot [Raise (Exn ValueError ""); Raise (Exn ValueError "");
                  Ret (VStr "success")])).
  lia.
Defined.

Lemma async_retry_delays_nondecreasing_witness :
  (1 # 100 <= 2 # 100)%Q ∧ (2 # 100 <= 60)%Q.
Proof.
  apply (async_retry_delays_nondecreasing late_by_1ms async_mock 3 (1 # 100) 2 60
           [ValueError] (boot retry_on_failure_script) 0 (1 # 100) (2 # 100)).
  - lia.
  - vm_compute. discriminate.
  - vm_compute. discriminate.
  - vm_compute. discriminate.
  - reflexivity.
  - reflexivity.
Defined.

End RetryFacts.


(* ===================================================================== *)
(** ** Further properties of [async_timeout] and [AsyncEventLoopManager]  *)
(* ===================================================================== *)

Module EventLoopFacts.
Import AsyncUtils.

(** *** [AsyncEventLoopManager.run_async] and [run_in_executor] *)

(** [loop.run_until_complete(coro)]: refused on a closed loop and while a
    loop is running in the thread; otherwise the coroutine is driven to its
    end and its outcome handed back, the thread being left as it was. *)
Definition run_until_complete (loop : nat) (awaited : result value)
    (st : asyncio_state) : result value :=
  if is_closed st loop then Raise (Exn RuntimeError "Event loop is closed")
  else
    match running_loop st with
    | Some running =>
        if decide (running = loop) then
          Raise (Exn RuntimeError "This event loop is already running")
        else
          Raise (Exn RuntimeError
                   "Cannot run the event loop while another loop is running")
    | None => awaited
    end.

(** [run_async(coro, timeout=None)].  [if timeout:] is Python's truth
    test: [None] and [0] both skip the [wait_for] wrapper. *)
Definition run_async (coro : coroutine) (timeout : option Q)
  : M asyncio_state value :=
  fun w =>
  match get_or_create_event_loop w with
  | (Ret loop, w1) =>
      let awaited :=
        match timeout with
        | Some t => if Qeq_bool t 0 then outcome coro else wait_for coro t
        | None => outcome coro
        end in
      (run_until_complete loop awaited (env w1), w1)
  | (Raise e, w1) => (Raise e, w1)
  end.

(** [run_in_executor(func, ...)]: the future handed back belongs to the
    loop [asyncio.get_event_loop()] yields and resolves to what [func]
    returns or raises in the worker; [loop.run_in_executor] refuses a
    closed loop. *)
Definition run_in_executor (func_outcome : result value) (st : asyncio_state)
  : result (nat * result value) * asyncio_state :=
  match get_event_loop st with
  | (Ret loop, st1) =>
      if is_closed st1 loop then
        (Raise (Exn RuntimeError "Event loop is closed"), st1)
      else (Ret (loop, func_outcome), st1)
  | (Raise e, st1) => (Raise e, st1)
  end.

(** [test_run_async] and [test_run_async_with_timeout] *)
Definition async_func : coroutine := Coroutine (1 # 100) (Ret (VStr "result")).
Definition never_func : coroutine := Coroutine 10 (Ret (VStr "never")).

Example test_run_async :
  fst (run_async async_func None (boot fresh_worker_thread)) = Ret (VStr "result").
Proof. vm_compute. done. Qed.

Example test_run_async_with_timeout :
  fst (run_async never_func (Some (1 # 10)) (boot fresh_worker_thread))
  = Raise (Exn TimeoutError "").
Proof. vm_compute. done. Qed.

(** *** What [get_or_create_event_loop] returns, case by case *)

Lemma with_env_same {Env : Type} (w : world Env) : with_env w (env w) = w.
Proof. by destruct w. Qed.

Lemma is_closed_open (st : asyncio_state) (loop : nat) :
  loops st !! loop = Some false → is_closed st loop = false.
Proof. intros H. unfold is_closed. rewrite H. by apply bool_decide_eq_false. Qed.

(** A thread whose loop (the running one, or else the current one) is
    open gets that loop back and nothing changes. *)
Lemma get_or_create_reuses (w : world asyncio_state) (loop : nat) :
  running_loop (env w) = Some loop ∨
    (running_loop (env w) = None ∧ current_loop (env w) = Some loop) →
  loops (env w) !! loop = Some false →
  get_or_create_event_loop w = (Ret loop, w).
Proof.
  intros Hl Hopen. unfold get_or_create_event_loop, get_event_loop.
  destruct Hl as [-> | [-> ->]]; rewrite (is_closed_open _ _ Hopen);
    by rewrite with_env_same.
Qed.

Lemma get_or_create_result (w : world asyncio_state) :
  asyncio_wf (env w) →
  ∃ loop w',
    get_or_create_event_loop w = (Ret loop, w') ∧
    loops (env w') !! loop = Some false ∧
    asyncio_wf (env w') ∧
    running_loop (env w') = running_loop (env w) ∧
    tasks (env w') = tasks (env w) ∧
    logs w' = logs w ∧
    (running_loop (env w) = Some loop ∨
     (running_loop (env w) = None ∧ current_loop (env w') = Some loop)).
Proof.
  intros Hwf. pose proof Hwf as [Hrun Hcur].
  assert (∀ st, asyncio_wf st →
            ∃ l st2, install_new_loop st = (l, st2) ∧
              loops st2 !! l = Some false ∧ asyncio_wf st2 ∧
              running_loop st2 = running_loop st ∧ tasks st2 = tasks st ∧
              current_loop st2 = Some l) as Hnew.
  { intros st Hst. destruct (install_new_loop st) as [l st2] eqn:Ei.
    pose proof (install_new_loop_wf _ _ _ Hst Ei) as Hwf2.
    apply install_new_loop_spec in Ei as (_ & Hl & Hcl & Hr & Ht).
    exists l, st2. split_and!; try done. rewrite Hl. apply lookup_insert_eq. }
  destruct (running_loop (env w)) as [r|] eqn:Er.
  - exists r, w. rewrite (get_or_create_reuses w r); auto.
    split_and!; auto.
  - destruct (current_loop (env w)) as [c|] eqn:Ec.
    + destruct (Hcur c eq_refl) as [[|] Hb].
      * (* the thread's loop was closed *)
        destruct (Hnew (env w) Hwf) as (l & st2 & Ei & Ho & Hw2 & Hr & Ht & Hc).
        exists l, (with_env w st2).
        unfold get_or_create_event_loop, get_event_loop. rewrite Er, Ec.
        assert (is_closed (env w) c = true) as ->
          by (unfold is_closed; rewrite Hb; by apply bool_decide_eq_true).
        rewrite Ei. simpl. split_and!; try done; try congruence. right. done.
      * exists c, w. rewrite (get_or_create_reuses w c); auto.
        split_and!; auto.
    + destruct (Hnew (env w) Hwf) as (l & st2 & Ei & Ho & Hw2 & Hr & Ht & Hc).
      exists l, (with_env w st2).
      unfold get_or_create_event_loop, get_event_loop. rewrite Er, Ec.
      destruct (negb (set_called (env w)) && main_thread (env w)).
      * change (let '(loop, st1) := new_event_loop (env w) in
                (Ret loop, set_event_loop loop st1))
          with (let '(loop, st1) := install_new_loop (env w) in
                (@Ret nat loop, st1)).
        rewrite Ei. rewrite (is_closed_open _ _ Ho). simpl.
        split_and!; try done; try congruence. right. done.
      * change (isinstance _ [RuntimeError]) with true. cbv iota.
        rewrite Ei. simpl. split_and!; try done; try congruence. right. done.
Qed.

(** Calling [get_or_create_event_loop] again gives the same loop and
    changes nothing: a loop is created at most once while it stays open. *)
Theorem get_or_create_event_loop_idempotent (w : world asyncio_state) :
  asyncio_wf (env w) →
  ∃ loop w',
    get_or_create_event_loop w = (Ret loop, w') ∧
    get_or_create_event_loop w' = (Ret loop, w').
Proof.
  intros Hwf.
  destruct (get_or_create_result w Hwf) as (l & w' & Hg & Ho & _ & Hr & _ & _ & Hc).
  exists l, w'. split; [exact Hg|].
  apply get_or_create_reuses; [|exact Ho].
  rewrite Hr. destruct Hc as [Hc | [Hc1 Hc2]]; auto.
Qed.

Lemma get_or_create_event_loop_idempotent_witness :
  ∃ loop w',
    get_or_create_event_loop (boot thread_with_closed_loop) = (Ret loop, w') ∧
    get_or_create_event_loop w' = (Ret loop, w').
Proof.
  apply (get_or_create_event_loop_idempotent (boot thread_with_closed_loop)).
  simpl. exact thread_with_closed_loop_wf.
Defined.

(** Outside a running loop [run_async] hands back what the coroutine
    returns or raises.  A timeout of [None] or of [0] sets no deadline at
    all, however long the coroutine takes; any other timeout is
    [wait_for]'s. *)
Theorem run_async_outside_loop (coro : coroutine) (w : world asyncio_state) :
  asyncio_wf (env w) →
  running_loop (env w) = None →
  fst (run_async coro None w) = outcome coro ∧
  fst (run_async coro (Some 0%Q) w) = outcome coro ∧
  (∀ t : Q, ¬ (t == 0)%Q → fst (run_async coro (Some t) w) = wait_for coro t).
Proof.
  intros Hwf Hr.
  destruct (get_or_create_result w Hwf) as (l & w' & Hg & Ho & _ & Hr' & _ & _ & _).
  assert (∀ awaited, run_until_complete l awaited (env w') = awaited) as Hrun.
  { intros awaited. unfold run_until_complete.
    by rewrite (is_closed_open _ _ Ho), Hr', Hr. }
  unfold run_async. rewrite Hg. simpl. split_and!.
  - apply Hrun.
  - apply Hrun.
  - intros t Ht. rewrite Hrun.
    destruct (Qeq_bool t 0) eqn:E; [|done].
    apply Qeq_bool_iff in E. contradiction.
Qed.

Lemma run_async_outside_loop_witness :
  fst (run_async never_func None (boot fresh_worker_thread)) = outcome never_func ∧
  fst (run_async never_func (Some 0%Q) (boot fresh_worker_thread))
  = outcome never_func ∧
  (∀ t : Q, ¬ (t == 0)%Q →
     fst (run_async never_func (Some t) (boot fresh_worker_thread))
     = wait_for never_func t).
Proof.
  apply (run_async_outside_loop never_func (boot fresh_worker_thread)).
  - split; intros loop; simpl; done.
  - reflexivity.
Defined.

(** Called from inside a running loop, [run_async] fails with a
    [RuntimeError] whatever the coroutine and the timeout are: the
    coroutine is never driven, and the thread's state is left alone. *)
Theorem run_async_inside_running_loop (coro : coroutine) (timeout : option Q)
    (w : world asyncio_state) (loop : nat) :
  asyncio_wf (env w) →
  running_loop (env w) = Some loop →
  run_async coro timeout w
  = (Raise (Exn RuntimeError "This event loop is already running"), w).
Proof.
  intros [Hrun _] Hl. unfold run_async.
  rewrite (get_or_create_reuses w loop) by auto.
  unfold run_until_complete.
  rewrite (is_closed_open _ _ (Hrun loop Hl)), Hl.
  by rewrite decide_True.
Qed.

Lemma run_async_inside_running_loop_witness :
  run_async async_func None (boot inside_running_loop)
  = (Raise (Exn RuntimeError "This event loop is already running"),
     boot inside_running_loop).
Proof.
  apply (run_async_inside_running_loop async_func None (boot inside_running_loop)
           0%nat).
  - simpl. exact inside_running_loop_wf.
  - reflexivity.
Defined.

(** [run_in_executor] needs a usable loop and never makes one up where
    [asyncio] does not: in a thread that has no loop and is not entitled to
    an automatic one it raises [RuntimeError], and a closed current loop is
    refused rather than replaced, while [get_or_create_event_loop] returns
    an open loop in both situations. *)
Theorem run_in_executor_needs_a_loop (func_outcome : result value)
    (w : world asyncio_state) :
  asyncio_wf (env w) →
  running_loop (env w) = None →
  (current_loop (env w) = None ∧
     negb (set_called (env w)) && main_thread (env w) = false) ∨
  (∃ c, current_loop (env w) = Some c ∧ is_closed (env w) c = true) →
  (∃ e, run_in_executor func_outcome (env w) = (Raise e, env w) ∧
        exc_type e = RuntimeError) ∧
  (∃ loop w', get_or_create_event_loop w = (Ret loop, w') ∧
              is_closed (env w') loop = false).
Proof.
  intros Hwf Hr Hcase. split.
  - unfold run_in_executor, get_event_loop. rewrite Hr.
    destruct Hcase as [[-> ->] | (c & -> & ->)]; eauto.
  - destruct (get_or_create_result w Hwf) as (l & w' & Hg & Ho & _).
    exists l, w'. split; [exact Hg | by apply is_closed_open].
Qed.

Lemma run_in_executor_needs_a_loop_witness :
  (∃ e, run_in_executor (Ret (VInt 1)) (env (boot fresh_worker_thread))
        = (Raise e, env (boot fresh_worker_thread)) ∧
        exc_type e = RuntimeError) ∧
  (∃ loop w', get_or_create_event_loop (boot fresh_worker_thread) = (Ret loop, w') ∧
              is_closed (env w') loop = false).
Proof.
  apply (run_in_executor_needs_a_loop (Ret (VInt 1)) (boot fresh_worker_thread)).
  - split; intros loop; simpl; done.
  - reflexivity.
  - left. split; reflexivity.
Defined.

(** With an open loop at hand the future is bound to that loop and
    resolves to the function's own outcome, exceptions included. *)
Example run_in_executor_inside_loop :
  fst (run_in_executor (Raise (Exn ValueError "bad")) inside_running_loop)
  = Ret (0%nat, Raise (Exn ValueError "bad")).
Proof. vm_compute. done. Qed.

(** Two tasks created one after the other inside a running loop are
    different tasks, and creating the second leaves the first awaitable
    with its own coroutine's outcome. *)
Theorem create_task_twice_distinct (coro1 coro2 : coroutine)
    (w : world asyncio_state) (loop : nat) :
  asyncio_wf (env w) →
  running_loop (env w) = Some loop →
  ∃ t1 t2 w1 w2,
    create_task_if_loop_running coro1 w = (Ret (Some t1), w1) ∧
    create_task_if_loop_running coro2 w1 = (Ret (Some t2), w2) ∧
    t1 ≠ t2 ∧
    await_task (env w2) t1 = Some (outcome coro1) ∧
    await_task (env w2) t2 = Some (outcome coro2).
Proof.
  intros [Hrun _] Hl.
  pose proof (is_closed_open _ _ (Hrun loop Hl)) as Hc.
  unfold create_task_if_loop_running, get_running_loop, create_task.
  rewrite Hl, Hc. simpl.
  eexists _, _, _, _. split; [reflexivity|].
  simpl. unfold is_closed in *. simpl. rewrite Hc.
  split; [reflexivity|]. simpl.
  set (t1 := fresh (dom (tasks (env w)))).
  set (t2 := fresh (dom (<[t1 := (loop, coro1)]> (tasks (env w))))).
  assert (t1 ≠ t2) as Hne.
  { intros Heq. pose proof (is_fresh (dom (<[t1 := (loop, coro1)]> (tasks (env w)))))
      as Hf. fold t2 in Hf. rewrite <- Heq in Hf.
    apply Hf. rewrite dom_insert. set_solver. }
  split; [exact Hne|]. unfold await_task. simpl. split.
  - rewrite lookup_insert_ne by done. by rewrite lookup_insert_eq.
  - by rewrite lookup_insert_eq.
Qed.

Lemma create_task_twice_distinct_witness :
  ∃ t1 t2 w1 w2,
    create_task_if_loop_running task_func (boot inside_running_loop)
    = (Ret (Some t1), w1) ∧
    create_task_if_loop_running quick_func w1 = (Ret (Some t2), w2) ∧
    t1 ≠ t2 ∧
    await_task (env w2) t1 = Some (outcome task_func) ∧
    await_task (env w2) t2 = Some (outcome quick_func).
Proof.
  apply (create_task_twice_distinct task_func quick_func (boot inside_running_loop)
           0%nat).
  - simpl. exact inside_running_loop_wf.
  - reflexivity.
Defined.




End EventLoopFacts.

(* ===================================================================== *)
(** ** [examples/async_sensor_example.py]: the sensor at work             *)
(* ===================================================================== *)

Module AsyncSensorRuntime.
Import AsyncUtils AsyncSensorExample.

Section SimplifiedRetry.
Context {Env : Type}.
Variable lateness : nat → Q.
Variable func : Env → result value * Env.
Variable max_retries : Z.
Variable initial_delay : Q.

(** The example's own [async_retry]: every [Exception] is retried, the
    delay is constant, nothing is logged, and the last failure is re-raised
    from inside the handler.  A loop that never runs falls off the end of
    the function, which returns [None]. *)
Fixpoint retry_loop (attempts : list Z) : M Env value :=
  fun w =>
  match attempts with
  | [] => (Ret VNone, w)
  | attempt :: rest =>
      match call_func func w with
      | (Ret v, w1) => (Ret v, w1)
      | (Raise e, w1) =>
          if isinstance e [Exception] then
            if attempt <? max_retries - 1 then
              retry_loop rest (asyncio_sleep lateness initial_delay w1)
            else (Raise e, w1)
          else (Raise e, w1)
      end
  end.

Definition async_retry : M Env value := retry_loop (seqZ 0 max_retries).

(** Two worlds that the operation cannot tell apart and that have seen as
    many invocations and sleeps. *)
Definition same_progress (w w' : world Env) : Prop :=
  env w = env w' ∧ calls w = calls w' ∧ length (slept w) = length (slept w').

Lemma retry_loop_simulates (backoff_factor max_delay : Q) (m : nat) :
  ∀ (a : Z) (delay : Q) (last_exception : option exn) (w w' : world Env),
    a + Z.of_nat (S m) = max_retries →
    same_progress w w' →
    let simple := retry_loop (seqZ a (Z.of_nat (S m))) w in
    let full := retry_attempts lateness func max_retries backoff_factor max_delay
                  [Exception] (seqZ a (Z.of_nat (S m))) delay last_exception w' in
    fst simple = fst full ∧ same_progress (snd simple) (snd full).
Proof.
  induction m as [|m IH]; intros a delay last_exception w w' Ha (He & Hc & Hs).
  - rewrite seqZ_succ. simpl. unfold call_func. rewrite <- He.
    destruct (func (env w)) as [[v|x] e1]; simpl.
    + repeat split; simpl; congruence.
    + assert ((a <? max_retries - 1) = false) as -> by (apply Z.ltb_ge; lia).
      destruct (issubclass (exc_type x) Exception); simpl;
        repeat split; simpl; congruence.
  - rewrite seqZ_succ.
    change (retry_loop (a :: seqZ (a + 1) (Z.of_nat (S m))) w)
      with (match call_func func w with
            | (Ret v, w1) => (Ret v, w1)
            | (Raise e, w1) =>
                if isinstance e [Exception] then
                  if a <? max_retries - 1 then
                    retry_loop (seqZ (a + 1) (Z.of_nat (S m)))
                               (asyncio_sleep lateness initial_delay w1)
                  else (Raise e, w1)
                else (Raise e, w1)
            end).
    change (retry_attempts lateness func max_retries backoff_factor max_delay
              [Exception] (a :: seqZ (a + 1) (Z.of_nat (S m))) delay last_exception w')
      with (match call_func func w' with
            | (Ret v, w1) => (Ret v, w1)
            | (Raise e, w1) =>
                if isinstance e [Exception] then
                  if a <? max_retries - 1 then
                    retry_attempts lateness func max_retries backoff_factor max_delay
                      [Exception] (seqZ (a + 1) (Z.of_nat (S m)))
                      (Py.min (delay * backoff_factor) max_delay) (Some e)
                      (asyncio_sleep lateness delay
                         (emit (LogRetryWarning (a + 1) max_retries e delay) w1))
                  else
                    retry_attempts lateness func max_retries backoff_factor max_delay
                      [Exception] (seqZ (a + 1) (Z.of_nat (S m))) delay (Some e)
                      (emit (LogRetryError max_retries e) w1)
                else (Raise e, w1)
            end).
    unfold call_func. rewrite <- He.
    destruct (func (env w)) as [[v|x] e1].
    + repeat split; simpl; congruence.
    + destruct (isinstance x [Exception]).
      * assert ((a <? max_retries - 1) = true) as -> by (apply Z.ltb_lt; lia).
        apply IH; [lia|].
        repeat split; simpl; try congruence.
        rewrite !length_app. simpl. lia.
      * repeat split; simpl; congruence.
Qed.


Lemma simplified_retry_settles (k : nat) (w : world Env) (r : result value)
    (e' : Env) :
  Z.of_nat k < max_retries →
  fails_retryably func [Exception] k (env w) →
  func (env_after func k (env w)) = (r, e') →
  (∀ x, r = Raise x → isinstance x [Exception] = false) →
  fst (async_retry w) = r ∧ env (snd (async_retry w)) = e' ∧
  calls (snd (async_retry w)) = (calls w + S k)%nat.
Proof.
  intros Hk Hf Hr Hx.
  pose proof (retry_attempts_settles lateness func max_retries 1 initial_delay
                [Exception] k (Z.to_nat max_retries) 0 initial_delay None w r e') as H.
  rewrite Z2Nat.id in H by lia.
  destruct H as (H1 & H2 & H3 & _); try done; try lia.
  destruct (Z.to_nat max_retries) as [|m] eqn:Em; [lia|].
  assert (max_retries = Z.of_nat (S m)) as Hm by lia.
  pose proof (retry_loop_simulates 1 initial_delay m 0 initial_delay None w w) as S.
  rewrite <- Hm in S. destruct S as (S1 & S2 & S3 & _); [lia | done |].
  unfold async_retry. rewrite S1, S2, S3. done.
Qed.

Lemma simplified_retry_exhausted (w : world Env) (x : exn) (e' : Env) :
  1 ≤ max_retries →
  fails_retryably func [Exception] (Z.to_nat max_retries) (env w) →
  func (env_after func (Z.to_nat max_retries - 1) (env w)) = (Raise x, e') →
  fst (async_retry w) = Raise x ∧ env (snd (async_retry w)) = e' ∧
  calls (snd (async_retry w)) = (calls w + Z.to_nat max_retries)%nat.
Proof.
  intros Hn Hf Hr.
  destruct (Z.to_nat max_retries) as [|m] eqn:Em; [lia|].
  replace (S m - 1)%nat with m in Hr by lia.
  assert (max_retries = Z.of_nat (S m)) as Hm by lia.
  pose proof (retry_attempts_exhausts lateness func max_retries 1 initial_delay
                [Exception] m 0 initial_delay None w x e') as H.
  rewrite <- Hm in H.
  destruct H as (H1 & H2 & H3 & _); try done; try lia.
  pose proof (retry_loop_simulates 1 initial_delay m 0 initial_delay None w w) as S.
  rewrite <- Hm in S. destruct S as (S1 & S2 & S3 & _); [lia | done |].
  unfold async_retry. rewrite S1, S2, S3. done.
Qed.

End SimplifiedRetry.

(** The example's own [async_timeout]: the library's without the
    warning. *)
Definition async_timeout (coro : coroutine) (timeout_sec : Q)
    (timeout_result : value) : result value :=
  match wait_for coro timeout_sec with
  | Ret v => Ret v
  | Raise e =>
      if isinstance e [TimeoutError] then
        if is_not_None timeout_result then Ret timeout_result else Raise e
      else Raise e
  end.

(** What the sensor's logger receives. *)
Inductive sensor_log : Type :=
| LogInitializing
| LogConnected
| LogInitialized
| LogInitializeFailed (e : exn)
| LogStarting
| LogReadTimedOut
| LogRead (reading_count : Z) (temperature : value)
| LogReadError (e : exn)
| LogStopping.

(** The sensor object and its logger's output. *)
Record sensor_env : Type := SensorEnv {
  self : sensor;
  sensor_logs : list sensor_log
}.

Definition log (r : sensor_log) (w : world sensor_env) : world sensor_env :=
  with_env w (SensorEnv (self (env w)) (sensor_logs (env w) ++ [r])).

Definition set_self (s : sensor) (w : world sensor_env) : world sensor_env :=
  with_env w (SensorEnv s (sensor_logs (env w))).

(** [AsyncTemperatureSensor._connect_sensor]: the simulated connection
    always succeeds (its simulated I/O wait is part of the call and is not
    timed here). *)
Definition _connect_sensor (e : sensor_env) : result value * sensor_env :=
  (Ret VNone, SensorEnv (self e) (sensor_logs e ++ [LogConnected])).

Section Sensor.
Variable lateness : nat → Q.

(** The connection attempt [async_initialize] retries: [_connect_sensor]
    in the example, any replacement in a subclass. *)
Variable connect : sensor_env → result value * sensor_env.

(** [AsyncTemperatureSensor.async_initialize] *)
Definition async_initialize : M sensor_env value :=
  fun w =>
  match async_retry lateness connect 3 (1 # 2) (log LogInitializing w) with
  | (Ret _, w1) =>
      let s := self (env w1) in
      (Ret VNone,
       set_self (Sensor (sensor_id s) (reading_count s) true true)
                (log LogInitialized
                   (set_self (Sensor (sensor_id s) (reading_count s) true
                                     (is_async_initialized s)) w1)))
  | (Raise e, w1) =>
      if isinstance e [Exception] then (Raise e, log (LogInitializeFailed e) w1)
      else (Raise e, w1)
  end.

(** [AsyncTemperatureSensor.async_start] *)
Definition async_start : M sensor_env value :=
  fun w =>
  if negb (is_async_initialized (self (env w))) then
    match async_initialize w with
    | (Ret _, w1) => (Ret VNone, log LogStarting w1)
    | (Raise e, w1) => (Raise e, w1)
    end
  else (Ret VNone, log LogStarting w).

(** [AsyncTemperatureSensor.async_stop], with its log line. *)
Definition async_stop : M sensor_env value :=
  fun w =>
  let w1 := log LogStopping w in
  (Ret VNone, set_self (AsyncSensorExample.async_stop (self (env w1))) w1).

(** Values the format [.2f] accepts; on any other, the f-string of the
    log line raises a [ValueError]. *)
Definition formats_as_float (v : value) : bool :=
  match v with
  | VBool _ | VInt _ | VFloat _ => true
  | VNone | VStr _ => false
  end.

(** The [except Exception as e] clause of [read_temperature]. *)
Definition read_failed (e : exn) (w : world sensor_env)
  : result value * world sensor_env :=
  if isinstance e [Exception] then (Ret VNone, log (LogReadError e) w)
  else (Raise e, w).

(** [AsyncTemperatureSensor.read_temperature]; [do_read] is the coroutine
    [self._do_read_temperature()] returns. *)
Definition read_temperature (do_read : coroutine) : M sensor_env value :=
  fun w =>
  let s := self (env w) in
  if negb (is_connected s) then
    (Raise (Exn RuntimeError "Sensor not connected"), w)
  else
    match async_timeout do_read 2 VNone with
    | Ret temperature =>
        if is_not_None temperature then
          let count := reading_count s + 1 in
          let w1 := set_self (Sensor (sensor_id s) count (is_connected s)
                                     (is_async_initialized s)) w in
          if formats_as_float temperature then
            (Ret temperature, log (LogRead count temperature) w1)
          else
            read_failed
              (Exn ValueError "Unknown format code 'f' for object of type 'str'") w1
        else (Ret VNone, log LogReadTimedOut w)
    | Raise e => read_failed e w
    end.

(** [AsyncTemperatureSensor._do_read_temperature]: a tenth of a second of
    simulated I/O, then [20.0 + random.uniform(-5, 5)]; [r] is the number
    drawn. *)
Definition _do_read_temperature (r : Q) : coroutine :=
  Coroutine (1 # 10) (Ret (VFloat (20 + r))).

(** *** Reading *)

(** On a connected sensor [read_temperature] raises nothing an
    [except Exception] would catch: a read that times out or fails yields
    [None] and an error record, with the count untouched, and the
    ["timed out"] warning is not what a timeout logs; a number read in time
    is returned and counted once. *)
Theorem read_temperature_connected (do_read : coroutine) (w : world sensor_env) :
  is_connected (self (env w)) = true →
  let out := read_temperature do_read w in
  (∀ e, fst out = Raise e →
        isinstance e [Exception] = false ∧ outcome do_read = Raise e) ∧
  ((2 < duration do_read)%Q →
     fst out = Ret VNone ∧
     self (env (snd out)) = self (env w) ∧
     sensor_logs (env (snd out))
     = sensor_logs (env w) ++ [LogReadError (Exn TimeoutError "")]) ∧
  (∀ t, (duration do_read < 2)%Q → outcome do_read = Ret (VFloat t) →
        fst out = Ret (VFloat t) ∧
        reading_count (self (env (snd out))) = reading_count (self (env w)) + 1).
Proof.
  intros Hc out. subst out. unfold read_temperature. rewrite Hc.
  cbn [negb]. unfold async_timeout. split_and!.
  - unfold wait_for.
    destruct (Qle_bool 2 (duration do_read)); cbn [negb].
    + simpl. discriminate.
    + destruct (outcome do_read) as [v|x].
      * destruct (is_not_None v); [|discriminate].
        destruct (formats_as_float v); [discriminate|]. simpl. discriminate.
      * intros e.
        assert (∀ w', fst (read_failed x w') = Raise e →
                  isinstance e [Exception] = false ∧ @Raise value x = Raise e) as Hrf.
        { intros w'. unfold read_failed.
          destruct (isinstance x [Exception]) eqn:Hi; [discriminate|].
          simpl. by intros [= <-]. }
        destruct (isinstance x [TimeoutError]); apply Hrf.
  - intros Hlate. rewrite wait_for_late by lra. simpl. done.
  - intros t Hlt Ho. rewrite (wait_for_in_time _ _ Hlt), Ho. simpl. done.
Qed.

Lemma read_temperature_connected_witness :
  let w := boot (SensorEnv (connected (new_sensor "temp-001")) []) in
  let out := read_temperature slow_func w in
  (∀ e, fst out = Raise e →
        isinstance e [Exception] = false ∧ outcome slow_func = Raise e) ∧
  ((2 < duration slow_func)%Q →
     fst out = Ret VNone ∧
     self (env (snd out)) = self (env w) ∧
     sensor_logs (env (snd out))
     = sensor_logs (env w) ++ [LogReadError (Exn TimeoutError "")]) ∧
  (∀ t, (duration slow_func < 2)%Q → outcome slow_func = Ret (VFloat t) →
        fst out = Ret (VFloat t) ∧
        reading_count (self (env (snd out))) = reading_count (self (env w)) + 1).
Proof.
  apply (read_temperature_connected slow_func
           (boot (SensorEnv (connected (new_sensor "temp-001")) []))).
  reflexivity.
Defined.

(** The sensor as written always reads in time: connected, it returns
    the simulated temperature and counts the reading. *)
Example read_simulated_temperature (r : Q) :
  let w := boot (SensorEnv (connected (new_sensor "temp-001")) []) in
  fst (read_temperature (_do_read_temperature r) w) = Ret (VFloat (20 + r)) ∧
  reading_count (self (env (snd (read_temperature (_do_read_temperature r) w)))) = 1.
Proof. split; reflexivity. Qed.

(** Whatever the read does, [read_temperature] leaves the sensor's
    identity and its connection flags alone, and the count of readings
    stays or grows by one. *)
Theorem read_temperature_preserves (do_read : coroutine) (w : world sensor_env) :
  let s := self (env w) in
  let s' := self (env (snd (read_temperature do_read w))) in
  sensor_id s' = sensor_id s ∧
  is_connected s' = is_connected s ∧
  is_async_initialized s' = is_async_initialized s ∧
  (reading_count s' = reading_count s ∨ reading_count s' = reading_count s + 1) ∧
  calls (snd (read_temperature do_read w)) = calls w.
Proof.
  simpl. unfold read_temperature.
  destruct (is_connected (self (env w))) eqn:Hc; cbn [negb];
    [|simpl; rewrite ?Hc; split_and!; auto].
  assert (∀ x w', self (env (snd (read_failed x w'))) = self (env w') ∧
                  calls (snd (read_failed x w')) = calls w') as Hrf.
  { intros x w'. unfold read_failed. by destruct (isinstance x [Exception]). }
  destruct (async_timeout do_read 2 VNone) as [v|x].
  - destruct (is_not_None v); [|simpl; rewrite ?Hc; split_and!; auto].
    destruct (formats_as_float v).
    + simpl. rewrite ?Hc. split_and!; auto.
    + match goal with |- context [read_failed ?x ?w'] =>
        destruct (Hrf x w') as [-> ->] end.
      simpl. rewrite ?Hc. split_and!; auto.
  - destruct (Hrf x w) as [-> ->]. rewrite ?Hc. split_and!; auto.
Qed.

(** *** Initializing, starting and stopping *)

Lemma fails_retryably_last {Env : Type} (f : Env → result value * Env)
    (classes : list exc_class) (m : nat) :
  ∀ (e e' : Env) (x : exn),
    fails_retryably f classes (S m) e →
    f (env_after f m e) = (Raise x, e') →
    isinstance x classes = true.
Proof.
  induction m as [|m IH]; intros e e' x Hf Hr.
  - simpl in *. rewrite Hr in Hf. tauto.
  - simpl in Hf, Hr. destruct (f e) as [[v|y] e1] eqn:E; [contradiction|].
    simpl in Hr. destruct Hf as [_ Hf]. eapply (IH e1); eassumption.
Qed.

(** [async_initialize] sets [is_connected] and [_is_async_initialized]
    together and only when a connection attempt succeeded within the three
    attempts; when all three fail, the third failure is logged and
    re-raised and the sensor is as the attempts left it. *)
Theorem async_initialize_marks_success_only (w : world sensor_env) :
  let e0 := env (log LogInitializing w) in
  let out := async_initialize w in
  (∀ (k : nat) v e', (k < 3)%nat →
     fails_retryably connect [Exception] k e0 →
     connect (env_after connect k e0) = (Ret v, e') →
     fst out = Ret VNone ∧
     is_connected (self (env (snd out))) = true ∧
     is_async_initialized (self (env (snd out))) = true ∧
     calls (snd out) = (calls w + (k + 1))%nat) ∧
  (∀ x e',
     fails_retryably connect [Exception] 3 e0 →
     connect (env_after connect 2 e0) = (Raise x, e') →
     fst out = Raise x ∧
     self (env (snd out)) = self e' ∧
     sensor_logs (env (snd out)) = sensor_logs e' ++ [LogInitializeFailed x] ∧
     calls (snd out) = (calls w + 3)%nat).
Proof.
  simpl. split.
  - intros k v e' Hk Hf Hr.
    destruct (simplified_retry_settles lateness connect 3 (1 # 2) k
                (log LogInitializing w) (Ret v) e') as (H1 & H2 & H3);
      try done; try lia.
    unfold async_initialize.
    destruct (async_retry lateness connect 3 (1 # 2) (log LogInitializing w))
      as [r w1].
    simpl in H1, H2, H3. subst r. simpl. split_and!; try done.
    rewrite H3. lia.
  - intros x e' Hf Hr.
    pose proof (fails_retryably_last connect [Exception] 2 _ _ _ Hf Hr) as Hi.
    destruct (simplified_retry_exhausted lateness connect 3 (1 # 2)
                (log LogInitializing w) x e') as (H1 & H2 & H3); try done.
    unfold async_initialize.
    destruct (async_retry lateness connect 3 (1 # 2) (log LogInitializing w))
      as [r w1].
    simpl in H1, H2, H3. subst r. rewrite Hi. simpl. rewrite H2.
    split_and!; try done.
Qed.

(** A sensor that was stopped is not reconnected by [async_start]: the
    stop clears [is_connected] but leaves [_is_async_initialized] set, so
    the start skips the initialization, makes no connection attempt, and
    every later [read_temperature] raises ["Sensor not connected"]. *)
Theorem stop_then_start_stays_disconnected (w : world sensor_env)
    (do_read : coroutine) :
  is_async_initialized (self (env w)) = true →
  let restarted := async_start (snd (async_stop w)) in
  fst restarted = Ret VNone ∧
  is_connected (self (env (snd restarted))) = false ∧
  calls (snd restarted) = calls w ∧
  fst (read_temperature do_read (snd restarted))
  = Raise (Exn RuntimeError "Sensor not connected").
Proof.
  intros Hi. unfold async_start, async_stop, read_temperature. simpl.
  rewrite Hi. simpl. done.
Qed.

Lemma async_start_initialized (w : world sensor_env) :
  is_async_initialized (self (env w)) = true →
  async_start w = (Ret VNone, log LogStarting w).
Proof. intros Hi. unfold async_start. by rewrite Hi. Qed.

(** Once [async_start] has succeeded, starting again makes no further
    connection attempt. *)
Theorem async_start_connects_once (w : world sensor_env) (v : value) :
  fst (async_start w) = Ret v →
  calls (snd (async_start (snd (async_start w)))) = calls (snd (async_start w)) ∧
  fst (async_start (snd (async_start w))) = Ret VNone.
Proof.
  intros Hok.
  assert (is_async_initialized (self (env (snd (async_start w)))) = true) as Hi.
  { revert Hok. unfold async_start.
    destruct (is_async_initialized (self (env w))) eqn:E; cbn [negb].
    - intros _. simpl. exact E.
    - unfold async_initialize.
      destruct (async_retry lateness connect 3 (1 # 2) (log LogInitializing w))
        as [[r|x] w1]; [by simpl|].
      destruct (isinstance x [Exception]); discriminate. }
  rewrite (async_start_initialized _ Hi). by simpl.
Qed.

End Sensor.

(** The sensor of the example, freshly made and after its
    initialization. *)
Definition sensor_1 : world sensor_env := boot (SensorEnv (new_sensor "sensor-001") []).

Definition sensor_1_initialized : world sensor_env :=
  snd (async_initialize late_by_1ms _connect_sensor sensor_1).

(** With the example's own [_connect_sensor] the first attempt succeeds. *)
Example async_initialize_connects_at_once :
  fst (async_initialize late_by_1ms _connect_sensor sensor_1) = Ret VNone ∧
  self (env sensor_1_initialized) = connected (new_sensor "sensor-001") ∧
  calls sensor_1_initialized = 1%nat ∧
  slept sensor_1_initialized = [] ∧
  sensor_logs (env sensor_1_initialized)
  = [LogInitializing; LogConnected; LogInitialized].
Proof. vm_compute. done. Qed.

Lemma stop_then_start_stays_disconnected_witness :
  let restarted := async_start late_by_1ms _connect_sensor
                     (snd (async_stop sensor_1_initialized)) in
  fst restarted = Ret VNone ∧
  is_connected (self (env (snd restarted))) = false ∧
  calls (snd restarted) = calls sensor_1_initialized ∧
  fst (read_temperature (_do_read_temperature 0) (snd restarted))
  = Raise (Exn RuntimeError "Sensor not connected").
Proof.
  apply (stop_then_start_stays_disconnected late_by_1ms _connect_sensor
           sensor_1_initialized (_do_read_temperature 0)).
  reflexivity.
Defined.

Lemma async_start_connects_once_witness :
  calls (snd (async_start late_by_1ms _connect_sensor
                (snd (async_start late_by_1ms _connect_sensor sensor_1))))
  = calls (snd (async_start late_by_1ms _connect_sensor sensor_1)) ∧
  fst (async_start late_by_1ms _connect_sensor
         (snd (async_start late_by_1ms _connect_sensor sensor_1)))
  = Ret VNone.
Proof.
  apply (async_start_connects_once late_by_1ms _connect_sensor sensor_1 VNone).
  reflexivity.
Defined.

(** A connection that never comes up. *)
Definition unreachable_sensor (e : sensor_env) : result value * sensor_env :=
  (Raise (Exn ConnectionError "no route to sensor"), e).

Example async_initialize_gives_up :
  let out := async_initialize late_by_1ms unreachable_sensor sensor_1 in
  fst out = Raise (Exn ConnectionError "no route to sensor") ∧
  calls (snd out) = 3%nat ∧
  slept (snd out) = [1 # 2; 1 # 2] ∧
  is_connected (self (env (snd out))) = false ∧
  is_async_initialized (self (env (snd out))) = false.
Proof. vm_compute. done. Qed.

End AsyncSensorRuntime.

(* ===================================================================== *)
(** ** [mycodo/utils/health.py] and [mycodo_flask/routes_monitoring.py]   *)
(* ===================================================================== *)

Module Health.

(** The dictionary a check returns: [status] and [message] are always
    there, [details] and [error] only in some branches. *)
Record check_result : Type := CheckResult {
  status : string;
  message : string;
  details : option (list (string * value));
  error : option string
}.

(** What the database session does inside [check_database]: opening it,
    running [SELECT 1] or closing it raises, or [fetchone()] hands back a
    row or [None]. *)
Inductive db_probe : Type :=
| DbRaised (e : exn)
| DbRow (row : option (list value)).

(** What importing [RPi.GPIO] does: it succeeds (the module may or may not
    have a [VERSION]), it fails with [ImportError], or it raises something
    else. *)
Inductive gpio_probe : Type :=
| GpioImported (version : option string)
| GpioImportError
| GpioRaised (e : exn).

(** What [DaemonControl().ram_use()] does. *)
Inductive daemon_probe : Type :=
| DaemonRaised (e : exn)
| DaemonRamUse (ram_use : value).

(** [x == 1] on a value of a row. *)
Definition equals_one (x : value) : bool :=
  match x with
  | VInt z => (z =? 1)%Z
  | VBool b => b
  | VFloat q => Qeq_bool q 1
  | VNone | VStr _ => false
  end.

(** An [except Exception as e] handler that builds an unhealthy result
    out of [str(e)]. *)
Definition failed (prefix : string) (e : exn) : result check_result :=
  if isinstance e [Exception] then
    Ret (CheckResult "unhealthy" (prefix +:+ exc_msg e) None (Some (exc_msg e)))
  else Raise e.

Section Checks.
(** [SQL_DATABASE_MYCODO] of [mycodo.config] and whether that path
    exists. *)
Variable database_path : string.
Variable database_exists : bool.

(** [HealthChecker.check_database] *)
Definition check_database (probe : db_probe) : result check_result :=
  match probe with
  | DbRow (Some (first :: _)) =>
      if equals_one first then
        Ret (CheckResult "healthy" "Database connection successful"
               (Some [("database_path", VStr database_path);
                      ("database_exists", VBool database_exists)])
               None)
      else Ret (CheckResult "unhealthy" "Database query failed" None None)
  | DbRow _ => Ret (CheckResult "unhealthy" "Database query failed" None None)
  | DbRaised e => failed "Database connection failed: " e
  end.

(** [HealthChecker.check_gpio] *)
Definition check_gpio (probe : gpio_probe) : result check_result :=
  match probe with
  | GpioImported version =>
      Ret (CheckResult "healthy" "GPIO available"
             (Some [("gpio_available", VBool true);
                    ("gpio_version", VStr (default "unknown" version))])
             None)
  | GpioImportError =>
      Ret (CheckResult "degraded" "GPIO not available (not on Raspberry Pi)"
             (Some [("gpio_available", VBool false)]) None)
  | GpioRaised e => failed "GPIO check failed: " e
  end.

(** [HealthChecker.check_daemon] *)
Definition check_daemon (probe : daemon_probe) : result check_result :=
  match probe with
  | DaemonRamUse ram_use =>
      if is_not_None ram_use then
        Ret (CheckResult "healthy" "Daemon is running"
               (Some [("ram_use_mb", ram_use)]) None)
      else Ret (CheckResult "unhealthy" "Unable to communicate with daemon"
                  None None)
  | DaemonRaised e => failed "Daemon check failed: " e
  end.

(** The dictionary [check_all] returns. *)
Record health_status : Type := HealthStatus {
  overall_status : string;
  uptime_seconds : Q;
  database : check_result;
  gpio : check_result;
  daemon : check_result
}.

(** [HealthChecker.check_all]; [now - start_time] is [get_uptime()]. *)
Definition check_all (start_time now : Q) (db : db_probe) (io : gpio_probe)
    (dm : daemon_probe) : result health_status :=
  match check_database db with
  | Raise e => Raise e
  | Ret database_check =>
      match check_gpio io with
      | Raise e => Raise e
      | Ret gpio_check =>
          match check_daemon dm with
          | Raise e => Raise e
          | Ret daemon_check =>
              let checks := [database_check; gpio_check; daemon_check] in
              let overall :=
                if forallb (λ c, String.eqb (status c) "healthy") checks then
                  "healthy"
                else if existsb (λ c, String.eqb (status c) "unhealthy") checks then
                  "unhealthy"
                else "degraded" in
              Ret (HealthStatus overall (now - start_time) database_check
                                gpio_check daemon_check)
          end
      end
  end.

(** A Flask response: the JSON body and the status code. *)
Record response (Body : Type) : Type := Response {
  body : Body;
  status_code : Z
}.
Arguments Response {Body}.
Arguments body {Body}.
Arguments status_code {Body}.

(** [routes_monitoring.health] *)
Definition health (start_time now : Q) (db : db_probe) (io : gpio_probe)
    (dm : daemon_probe) : result (response health_status) :=
  match check_all start_time now db io dm with
  | Raise e => Raise e
  | Ret health_status =>
      Ret (Response health_status
             (if String.eqb (overall_status health_status) "unhealthy"
              then 503 else 200))
  end.

(** The body of [routes_monitoring.readiness]. *)
Record readiness_body : Type := Readiness {
  ready_status : string;
  ready_message : string;
  reason : option string
}.

(** [routes_monitoring.readiness] *)
Definition readiness (db : db_probe) : result (response readiness_body) :=
  match check_database db with
  | Raise e => Raise e
  | Ret db_check =>
      if String.eqb (status db_check) "healthy" then
        Ret (Response (Readiness "ready" "Application is ready to serve traffic"
                         None) 200)
      else
        Ret (Response (Readiness "not_ready"
                         "Application is not ready to serve traffic"
                         (Some (message db_check))) 503)
  end.

(** *** What the checks can say *)

Lemma failed_status (prefix : string) (e : exn) (r : check_result) :
  failed prefix e = Ret r → status r = "unhealthy".
Proof.
  unfold failed. destruct (isinstance e [Exception]); [|done]. by intros [= <-].
Qed.

Lemma check_database_status (db : db_probe) (r : check_result) :
  check_database db = Ret r → status r = "healthy" ∨ status r = "unhealthy".
Proof.
  destruct db as [e | [[|v row]|]]; simpl.
  - intros H. right. by eapply failed_status.
  - intros [= <-]. by right.
  - destruct (equals_one v); intros [= <-]; auto.
  - intros [= <-]. by right.
Qed.

Lemma check_gpio_status (io : gpio_probe) (r : check_result) :
  check_gpio io = Ret r →
  status r = "healthy" ∨ status r = "degraded" ∨ status r = "unhealthy".
Proof.
  destruct io as [v | | e]; simpl.
  - intros [= <-]. auto.
  - intros [= <-]. auto.
  - intros H. right. right. by eapply failed_status.
Qed.

Lemma check_daemon_status (dm : daemon_probe) (r : check_result) :
  check_daemon dm = Ret r → status r = "healthy" ∨ status r = "unhealthy".
Proof.
  destruct dm as [e | ram]; simpl.
  - intros H. right. by eapply failed_status.
  - destruct (is_not_None ram); intros [= <-]; auto.
Qed.

(** What [check_all] returns is made of what the three checks return. *)
Lemma check_all_parts (start_time now : Q) (db : db_probe) (io : gpio_probe)
    (dm : daemon_probe) (r : health_status) :
  check_all start_time now db io dm = Ret r →
  check_database db = Ret (database r) ∧
  check_gpio io = Ret (gpio r) ∧
  check_daemon dm = Ret (daemon r) ∧
  overall_status r =
    (if forallb (λ c, String.eqb (status c) "healthy")
                [database r; gpio r; daemon r] then "healthy"
     else if existsb (λ c, String.eqb (status c) "unhealthy")
                     [database r; gpio r; daemon r] then "unhealthy"
     else "degraded").
Proof.
  unfold check_all.
  destruct (check_database db) as [d|]; [|done].
  destruct (check_gpio io) as [g|]; [|done].
  destruct (check_daemon dm) as [m|]; [|done].
  by intros [= <-].
Qed.

(** The overall status is [healthy] exactly when all three checks are,
    [unhealthy] exactly when one of them is, and [degraded] exactly when
    the database and the daemon are healthy and only GPIO is missing. *)
Theorem check_all_overall_status (start_time now : Q) (db : db_probe)
    (io : gpio_probe) (dm : daemon_probe) (r : health_status) :
  check_all start_time now db io dm = Ret r →
  (overall_status r = "healthy" ↔
     status (database r) = "healthy" ∧ status (gpio r) = "healthy" ∧
     status (daemon r) = "healthy") ∧
  (overall_status r = "unhealthy" ↔
     status (database r) = "unhealthy" ∨ status (gpio r) = "unhealthy" ∨
     status (daemon r) = "unhealthy") ∧
  (overall_status r = "degraded" ↔
     status (database r) = "healthy" ∧ status (gpio r) = "degraded" ∧
     status (daemon r) = "healthy").
Proof.
  intros H. apply check_all_parts in H as (Hd & Hg & Hm & ->). simpl.
  apply check_database_status in Hd. apply check_gpio_status in Hg.
  apply check_daemon_status in Hm.
  destruct Hd as [-> | ->], Hg as [-> | [-> | ->]], Hm as [-> | ->]; simpl;
    intuition (try discriminate).
Qed.

(** [/health] answers 503 exactly when one of the three checks is
    unhealthy, and 200 otherwise: a missing GPIO library alone does not
    take the endpoint down. *)
Theorem health_status_code (start_time now : Q) (db : db_probe)
    (io : gpio_probe) (dm : daemon_probe) (resp : response health_status) :
  health start_time now db io dm = Ret resp →
  (status_code resp = 503 ↔
     status (database (body resp)) = "unhealthy" ∨
     status (gpio (body resp)) = "unhealthy" ∨
     status (daemon (body resp)) = "unhealthy") ∧
  (status_code resp = 503 ∨ status_code resp = 200) ∧
  (io = GpioImportError →
   status (database (body resp)) = "healthy" →
   status (daemon (body resp)) = "healthy" →
   status_code resp = 200 ∧ overall_status (body resp) = "degraded").
Proof.
  unfold health.
  destruct (check_all start_time now db io dm) as [r|] eqn:Hall; [|done].
  intros [= <-]. simpl.
  apply check_all_parts in Hall as (Hd & Hg & Hm & ->). simpl.
  assert (io = GpioImportError → status (gpio r) = "degraded") as Hio.
  { intros ->. simpl in Hg. by injection Hg as <-. }
  apply check_database_status in Hd. apply check_gpio_status in Hg.
  apply check_daemon_status in Hm.
  revert Hio.
  destruct Hd as [-> | ->], Hg as [-> | [-> | ->]], Hm as [-> | ->]; simpl;
    intros Hio;
    (split_and!;
     [ intuition (try discriminate; try lia)
     | auto
     | intros Hio' Hd' Hm'; try discriminate;
       try (specialize (Hio Hio'); discriminate); auto ]).
Qed.

(** A failing readiness probe means a failing health endpoint, with the
    database's message as the reason; the converse does not hold, since
    readiness looks at the database only. *)
Theorem readiness_failure_implies_health_failure (start_time now : Q)
    (db : db_probe) (io : gpio_probe) (dm : daemon_probe)
    (ready : response readiness_body) (resp : response health_status) :
  readiness db = Ret ready →
  health start_time now db io dm = Ret resp →
  (status_code ready = 200 ↔ status (database (body resp)) = "healthy") ∧
  (status_code ready = 503 →
     status_code resp = 503 ∧
     reason (body ready) = Some (message (database (body resp)))).
Proof.
  unfold readiness, health.
  destruct (check_all start_time now db io dm) as [r|] eqn:Hall; [|done].
  apply check_all_parts in Hall as (Hd & Hg & Hm & Ho).
  rewrite Hd. intros Hr [= <-]. simpl. rewrite Ho. clear Ho. simpl.
  apply check_database_status in Hd. apply check_gpio_status in Hg.
  apply check_daemon_status in Hm.
  destruct Hd as [Hd | Hd]; rewrite Hd in Hr |- *; simpl in Hr;
    injection Hr as <-; simpl.
  - split; [done|]. intros; lia.
  - split; [split; intros; [lia | discriminate]|]. intros _.
    split; [|done]. reflexivity.
Qed.

(** The checks turn every [Exception] into an unhealthy result: what
    [check_all] lets through was raised by one of the three probes and is
    no [Exception] (a [KeyboardInterrupt], say). *)
Theorem check_all_raises_no_Exception (start_time now : Q) (db : db_probe)
    (io : gpio_probe) (dm : daemon_probe) (e : exn) :
  check_all start_time now db io dm = Raise e →
  isinstance e [Exception] = false ∧
  (db = DbRaised e ∨ io = GpioRaised e ∨ dm = DaemonRaised e).
Proof.
  assert (∀ prefix x, failed prefix x = Raise e →
            isinstance e [Exception] = false ∧ x = e) as Hf.
  { intros prefix x. unfold failed.
    destruct (isinstance x [Exception]) eqn:Hi; [done|]. by intros [= <-]. }
  unfold check_all.
  destruct (check_database db) as [d|x] eqn:Hd.
  - destruct (check_gpio io) as [g|y] eqn:Hg.
    + destruct (check_daemon dm) as [m|z] eqn:Hm; [done|].
      intros [= ->]. destruct dm as [z'|ram]; simpl in Hm.
      * apply Hf in Hm as [? ->]. auto.
      * by destruct (is_not_None ram).
    + intros [= ->]. destruct io as [v| |y']; simpl in Hg; try done.
      apply Hf in Hg as [? ->]. auto.
  - intros [= ->]. destruct db as [x'|[[|v row]|]]; simpl in Hd; try done.
    + apply Hf in Hd as [? ->]. auto.
    + by destruct (equals_one v).
Qed.

End Checks.

Arguments Response {Body}.
Arguments body {Body}.
Arguments status_code {Body}.

(** A development machine: the database answers, the daemon answers,
    there is no [RPi.GPIO]. *)
Definition db_path : string := "/opt/Mycodo/databases/mycodo.db".

Definition database_fine : check_result :=
  CheckResult "healthy" "Database connection successful"
    (Some [("database_path", VStr db_path); ("database_exists", VBool true)]) None.

Definition gpio_missing : check_result :=
  CheckResult "degraded" "GPIO not available (not on Raspberry Pi)"
    (Some [("gpio_available", VBool false)]) None.

Definition daemon_fine : check_result :=
  CheckResult "healthy" "Daemon is running" (Some [("ram_use_mb", VFloat 42)]) None.

Definition without_gpio : health_status :=
  HealthStatus "degraded" (160 - 100) database_fine gpio_missing daemon_fine.

Example check_all_without_gpio :
  check_all db_path true 100 160 (DbRow (Some [VInt 1])) GpioImportError
            (DaemonRamUse (VFloat 42))
  = Ret without_gpio.
Proof. reflexivity. Qed.

(** The database is down, everything else is fine. *)
Definition database_down : check_result :=
  CheckResult "unhealthy" "Database connection failed: unable to open database file"
    None (Some "unable to open database file").

Definition gpio_fine : check_result :=
  CheckResult "healthy" "GPIO available"
    (Some [("gpio_available", VBool true); ("gpio_version", VStr "0.7.1")]) None.

Definition with_database_down : health_status :=
  HealthStatus "unhealthy" (160 - 100) database_down gpio_fine daemon_fine.

Definition sqlite_cannot_open : db_probe :=
  DbRaised (Exn OSError "unable to open database file").

Lemma check_all_overall_status_witness :
  (overall_status without_gpio = "healthy" ↔
     status (database without_gpio) = "healthy" ∧
     status (gpio without_gpio) = "healthy" ∧
     status (daemon without_gpio) = "healthy") ∧
  (overall_status without_gpio = "unhealthy" ↔
     status (database without_gpio) = "unhealthy" ∨
     status (gpio without_gpio) = "unhealthy" ∨
     status (daemon without_gpio) = "unhealthy") ∧
  (overall_status without_gpio = "degraded" ↔
     status (database without_gpio) = "healthy" ∧
     status (gpio without_gpio) = "degraded" ∧
     status (daemon without_gpio) = "healthy").
Proof.
  apply (check_all_overall_status db_path true 100 160 (DbRow (Some [VInt 1]))
           GpioImportError (DaemonRamUse (VFloat 42)) without_gpio).
  reflexivity.
Defined.

Lemma health_status_code_witness :
  let resp := Response without_gpio 200 in
  (status_code resp = 503 ↔
     status (database (body resp)) = "unhealthy" ∨
     status (gpio (body resp)) = "unhealthy" ∨
     status (daemon (body resp)) = "unhealthy") ∧
  (status_code resp = 503 ∨ status_code resp = 200) ∧
  (GpioImportError = GpioImportError →
   status (database (body resp)) = "healthy" →
   status (daemon (body resp)) = "healthy" →
   status_code resp = 200 ∧ overall_status (body resp) = "degraded").
Proof.
  apply (health_status_code db_path true 100 160 (DbRow (Some [VInt 1]))
           GpioImportError (DaemonRamUse (VFloat 42)) (Response without_gpio 200)).
  reflexivity.
Defined.

Lemma readiness_failure_implies_health_failure_witness :
  let ready := Response (Readiness "not_ready"
                           "Application is not ready to serve traffic"
                           (Some (message database_down))) 503 in
  let resp := Response with_database_down 503 in
  (status_code ready = 200 ↔ status (database (body resp)) = "healthy") ∧
  (status_code ready = 503 →
     status_code resp = 503 ∧
     reason (body ready) = Some (message (database (body resp)))).
Proof.
  apply (readiness_failure_implies_health_failure db_path true 100 160
           sqlite_cannot_open (GpioImported (Some "0.7.1"))
           (DaemonRamUse (VFloat 42))).
  - reflexivity.
  - reflexivity.
Defined.

(** The converse fails: with the daemon down the application is ready
    and unhealthy at once. *)
Example ready_but_unhealthy :
  (∃ ready, readiness db_path true (DbRow (Some [VInt 1])) = Ret ready ∧
            status_code ready = 200) ∧
  (∃ resp, health db_path true 100 160 (DbRow (Some [VInt 1]))
                  (GpioImported None) (DaemonRamUse VNone) = Ret resp ∧
           status_code resp = 503).
Proof. split; eexists; split; reflexivity. Qed.

Lemma check_all_raises_no_Exception_witness :
  isinstance (Exn KeyboardInterrupt "") [Exception] = false ∧
  (DbRow (Some [VInt 1]) = DbRaised (Exn KeyboardInterrupt "") ∨
   GpioRaised (Exn KeyboardInterrupt "") = GpioRaised (Exn KeyboardInterrupt "") ∨
   DaemonRamUse VNone = DaemonRaised (Exn KeyboardInterrupt "")).
Proof.
  apply (check_all_raises_no_Exception db_path true 100 160 (DbRow (Some [VInt 1]))
           (GpioRaised (Exn KeyboardInterrupt "")) (DaemonRamUse VNone)
           (Exn KeyboardInterrupt "")).
  reflexivity.
Defined.

End Health.

(* ===================================================================== *)
(** ** [mycodo/settings/base.py]: the version validator                   *)
(* ===================================================================== *)

Module Settings.

(** [s.split(sep)] for a one-character separator: the pieces between the
    occurrences of [sep], one more than there are occurrences. *)
Fixpoint split (sep : Ascii.ascii) (s : string) : list string :=
  match s with
  | EmptyString => [EmptyString]
  | String c rest =>
      if Ascii.eqb c sep then EmptyString :: split sep rest
      else
        match split sep rest with
        | piece :: pieces => String c piece :: pieces
        | [] => [String c EmptyString]
        end
  end.

(** The character ['.'] *)
Definition dot : Ascii.ascii := Ascii.ascii_of_nat 46.

(** [Settings.validate_version] *)
Definition validate_version (v : string) : result string :=
  if String.eqb v "" || (length (split dot v) <? 2)%nat then
    Raise (Exn ValueError "Version must be in format X.Y.Z")
  else Ret v.

Example split_version : split dot "8.16.2" = ["8"; "16"; "2"].
Proof. reflexivity. Qed.

Example split_empty : split dot "" = [""].
Proof. reflexivity. Qed.

Example split_trailing : split dot "8." = ["8"; ""].
Proof. reflexivity. Qed.

(** Number of occurrences of a character. *)
Fixpoint occurrences (sep : Ascii.ascii) (s : string) : nat :=
  match s with
  | EmptyString => 0
  | String c rest => (if Ascii.eqb c sep then 1 else 0) + occurrences sep rest
  end.

Lemma split_length (sep : Ascii.ascii) (s : string) :
  length (split sep s) = S (occurrences sep s).
Proof.
  induction s as [|c rest IH]; simpl; [done|].
  destruct (Ascii.eqb c sep); simpl.
  - by rewrite IH.
  - destruct (split sep rest) as [|piece pieces]; simpl in *; [done|]. exact IH.
Qed.

Lemma occurrences_positive (sep : Ascii.ascii) (s : string) :
  (0 < occurrences sep s)%nat ↔
  ∃ before after, s = (before +:+ String sep after)%string.
Proof.
  induction s as [|c rest IH]; simpl.
  - split; [lia|]. intros (before & after & H). by destruct before.
  - destruct (Ascii.eqb c sep) eqn:E.
    + apply Ascii.eqb_eq in E as ->. split; [|lia]. intros _.
      by exists EmptyString, rest.
    + simpl. rewrite IH. split.
      * intros (before & after & ->). by exists (String c before), after.
      * intros (before & after & H). destruct before as [|b before]; simpl in H.
        -- injection H as -> _. by rewrite Ascii.eqb_refl in E.
        -- injection H as _ ->. by exists before, after.
Qed.

(** The validator accepts a version exactly when it contains a dot, and
    then returns it unchanged; it looks neither for three components nor
    for digits, so ["8.16"], ["a.b"] and ["."] pass and ["8"] and [""] do
    not. *)
Theorem validate_version_accepts_dotted (v : string) :
  (validate_version v = Ret v ↔
   ∃ before after, v = (before +:+ String dot after)%string) ∧
  (validate_version v = Ret v ∨
   validate_version v = Raise (Exn ValueError "Version must be in format X.Y.Z")).
Proof.
  unfold validate_version. rewrite split_length.
  rewrite <- occurrences_positive.
  destruct (String.eqb v "") eqn:Ev.
  - apply String.eqb_eq in Ev as ->. simpl. split; [|by right].
    split; [done | lia].
  - simpl. destruct (occurrences dot v) as [|n] eqn:En; simpl.
    + split; [|by right]. split; [done | lia].
    + split; [|by left]. split; [lia | done].
Qed.

Example validate_version_examples :
  validate_version "8.16.2" = Ret "8.16.2" ∧
  validate_version "8.16" = Ret "8.16" ∧
  validate_version "." = Ret "." ∧
  validate_version "8" = Raise (Exn ValueError "Version must be in format X.Y.Z") ∧
  validate_version "" = Raise (Exn ValueError "Version must be in format X.Y.Z").
Proof. repeat split. Qed.

End Settings.

(* ===================================================================== *)
(** ** [mycodo/utils/metrics.py] and [mycodo_flask/middleware.py]         *)
(* ===================================================================== *)

Module Monitoring.

(** The registry, as far as [MetricsCollector] writes to it.  A labelled
    metric keeps one child per tuple of label values; a counter child
    starts at 0, histogram children keep what was observed, gauges keep
    the value last set. *)
Record metrics : Type := Metrics {
  http_requests_total : gmap (string * string * string) nat;
  http_request_duration_seconds : gmap (string * string) (list Q);
  errors_total : gmap (string * string) nat;
  sensor_readings_total : gmap string nat;
  sensor_reading_errors_total : gmap string nat;
  sensor_value : gmap (string * string * string * string) Q;
  output_state : gmap (string * string) Z;
  system_uptime_seconds : Q
}.

Definition empty_registry : metrics := Metrics ∅ ∅ ∅ ∅ ∅ ∅ ∅ 0.

(** [counter.labels(...).inc()] *)
Definition inc `{Countable K} (labels : K) (counter : gmap K nat) : gmap K nat :=
  <[labels := S (counter !!! labels)]> counter.

(** [histogram.labels(...).observe(x)] *)
Definition observe `{Countable K} (labels : K) (x : Q) (histogram : gmap K (list Q))
  : gmap K (list Q) :=
  <[labels := histogram !!! labels ++ [x]]> histogram.

(** [MetricsCollector.record_http_request]; [str(status)] is the decimal
    rendering of the code. *)
Definition record_http_request (method endpoint : string) (status : Z)
    (duration : Q) (m : metrics) : metrics :=
  Metrics (inc (method, endpoint, pretty status) (http_requests_total m))
          (observe (method, endpoint) duration (http_request_duration_seconds m))
          (errors_total m) (sensor_readings_total m)
          (sensor_reading_errors_total m) (sensor_value m) (output_state m)
          (system_uptime_seconds m).

(** [MetricsCollector.record_error] *)
Definition record_error (component error_type : string) (m : metrics) : metrics :=
  Metrics (http_requests_total m) (http_request_duration_seconds m)
          (inc (component, error_type) (errors_total m))
          (sensor_readings_total m) (sensor_reading_errors_total m)
          (sensor_value m) (output_state m) (system_uptime_seconds m).

(** [MetricsCollector.update_sensor_metrics] *)
Definition update_sensor_metrics (sensor_id sensor_name sensor_type
    measurement_type unit : string) (value : Q) (m : metrics) : metrics :=
  Metrics (http_requests_total m) (http_request_duration_seconds m)
          (errors_total m)
          (inc sensor_type (sensor_readings_total m))
          (sensor_reading_errors_total m)
          (<[(sensor_id, sensor_name, measurement_type, unit) := value]>
             (sensor_value m))
          (output_state m) (system_uptime_seconds m).

(** [MetricsCollector.record_sensor_error] *)
Definition record_sensor_error (sensor_type : string) (m : metrics) : metrics :=
  Metrics (http_requests_total m) (http_request_duration_seconds m)
          (errors_total m) (sensor_readings_total m)
          (inc sensor_type (sensor_reading_errors_total m))
          (sensor_value m) (output_state m) (system_uptime_seconds m).

(** [MetricsCollector.update_output_state] *)
Definition update_output_state (output_id output_name : string) (state : bool)
    (m : metrics) : metrics :=
  Metrics (http_requests_total m) (http_request_duration_seconds m)
          (errors_total m) (sensor_readings_total m)
          (sensor_reading_errors_total m) (sensor_value m)
          (<[(output_id, output_name) := if state then 1 else 0]> (output_state m))
          (system_uptime_seconds m).

(** [MetricsCollector.update_system_uptime]; [now] is [time.time()]. *)
Definition update_system_uptime (start_time now : Q) (m : metrics) : metrics :=
  Metrics (http_requests_total m) (http_request_duration_seconds m)
          (errors_total m) (sensor_readings_total m)
          (sensor_reading_errors_total m) (sensor_value m) (output_state m)
          (now - start_time).

(** A call on the collector. *)
Inductive collector_call : Type :=
| RecordHttpRequest (method endpoint : string) (status : Z) (duration : Q)
| RecordError (component error_type : string)
| UpdateSensorMetrics (sensor_id sensor_name sensor_type measurement_type
                       unit : string) (value : Q)
| RecordSensorError (sensor_type : string)
| UpdateOutputState (output_id output_name : string) (state : bool)
| UpdateSystemUptime (start_time now : Q).

Definition perform (c : collector_call) (m : metrics) : metrics :=
  match c with
  | RecordHttpRequest method endpoint status duration =>
      record_http_request method endpoint status duration m
  | RecordError component error_type => record_error component error_type m
  | UpdateSensorMetrics i n t mt u v => update_sensor_metrics i n t mt u v m
  | RecordSensorError t => record_sensor_error t m
  | UpdateOutputState i n s => update_output_state i n s m
  | UpdateSystemUptime s n => update_system_uptime s n m
  end.

Lemma inc_same `{Countable K} (labels : K) (counter : gmap K nat) :
  inc labels counter !!! labels = S (counter !!! labels).
Proof. unfold inc. by rewrite lookup_total_insert_eq. Qed.

Lemma inc_other `{Countable K} (labels other : K) (counter : gmap K nat) :
  labels ≠ other → inc labels counter !!! other = counter !!! other.
Proof. intros Hne. unfold inc. by rewrite lookup_total_insert_ne. Qed.

Lemma inc_monotone `{Countable K} (labels other : K) (counter : gmap K nat) :
  (counter !!! other ≤ inc labels counter !!! other)%nat.
Proof.
  destruct (decide (labels = other)) as [->|Hne].
  - rewrite inc_same. lia.
  - by rewrite inc_other.
Qed.

(** No call on the collector ever lowers or resets a counter child. *)
Theorem counters_never_decrease (c : collector_call) (m : metrics) :
  (∀ k, (http_requests_total m !!! k ≤ http_requests_total (perform c m) !!! k)%nat) ∧
  (∀ k, (errors_total m !!! k ≤ errors_total (perform c m) !!! k)%nat) ∧
  (∀ k, (sensor_readings_total m !!! k
         ≤ sensor_readings_total (perform c m) !!! k)%nat) ∧
  (∀ k, (sensor_reading_errors_total m !!! k
         ≤ sensor_reading_errors_total (perform c m) !!! k)%nat).
Proof.
  destruct c; simpl; split_and!; intros k; try done; apply inc_monotone.
Qed.

(** The labels a request is counted under. *)
Definition request_labels (r : string * string * Z * Q) : string * string * string :=
  let '(method, endpoint, status, _) := r in (method, endpoint, pretty status).

Definition record_all (requests : list (string * string * Z * Q)) (m : metrics)
  : metrics :=
  foldl (λ acc r, let '(method, endpoint, status, duration) := r in
                  record_http_request method endpoint status duration acc)
        m requests.

(** After a series of requests each child of [http_requests_total] has
    grown by the number of requests carrying its labels: requests that
    differ in method, endpoint or status code are counted apart, and none
    is lost or counted twice. *)
Theorem http_requests_counted_by_labels (requests : list (string * string * Z * Q))
    (m : metrics) (labels : string * string * string) :
  http_requests_total (record_all requests m) !!! labels
  = (http_requests_total m !!! labels
     + length (filter (λ r, request_labels r = labels) requests))%nat.
Proof.
  unfold record_all. revert m.
  induction requests as [|[[[method endpoint] status] duration] rest IH];
    intros m; simpl; [lia|].
  rewrite IH. simpl.
  destruct (decide ((method, endpoint, pretty status) = labels)) as [<-|Hne].
  - rewrite filter_cons_True by done. rewrite inc_same. simpl. lia.
  - rewrite filter_cons_False by done. rewrite inc_other by done. lia.
Qed.

(** *** [setup_request_middleware] *)

(** Flask's [g] as the middleware uses it: an attribute is there or not. *)
Record flask_g : Type := G {
  request_id : option string;
  start_time : option Q
}.

(** The parts of [flask.request] the middleware reads. *)
Record request : Type := Request {
  method : string;
  path : string;
  remote_addr : string;
  endpoint : option string
}.

Record http_response : Type := HttpResponse {
  status_code : Z;
  headers : gmap string string
}.

(** Events handed to the structured logger, with their own fields. *)
Inductive log_event : Type :=
| RequestStarted (method path remote_addr : string)
| RequestCompleted (method path : string) (status_code : Z) (duration_seconds : Q)
| RequestException (method path exception : string).

(** What a request handler shares with the hooks: [g], the context
    variables bound for logging, the collector and the log. *)
Record app_state : Type := AppState {
  g : flask_g;
  context : gmap string string;
  collector : metrics;
  events : list log_event
}.

(** [bind_context] with its keyword arguments: each key is bound,
    replacing an earlier binding. *)
Definition bind_context (bindings : list (string * string))
    (ctx : gmap string string) : gmap string string :=
  foldl (λ acc kv, <[fst kv := snd kv]> acc) ctx bindings.

(** [clear_context()] *)
Definition clear_context (ctx : gmap string string) : gmap string string := ∅.

(** [before_request]; [new_request_id] is [str(uuid.uuid4())] and [now]
    is [time.time()]. *)
Definition before_request (new_request_id : string) (now : Q) (req : request)
    (st : app_state) : app_state :=
  AppState (G (Some new_request_id) (Some now))
           (bind_context [("request_id", new_request_id); ("method", method req);
                          ("path", path req); ("remote_addr", remote_addr req)]
                         (context st))
           (collector st)
           (events st ++ [RequestStarted (method req) (path req) (remote_addr req)]).

(** [request.endpoint or 'unknown'] *)
Definition endpoint_or_unknown (req : request) : string :=
  match endpoint req with
  | Some e => if String.eqb e "" then "unknown" else e
  | None => "unknown"
  end.

(** [after_request] *)
Definition after_request (now : Q) (req : request) (resp : http_response)
    (st : app_state) : http_response * app_state :=
  let '(m, ev) :=
    match start_time (g st) with
    | Some t0 =>
        let duration := (now - t0)%Q in
        (record_http_request (method req) (endpoint_or_unknown req)
                             (status_code resp) duration (collector st),
         events st ++ [RequestCompleted (method req) (path req) (status_code resp)
                                        duration])
    | None => (collector st, events st)
    end in
  let resp' :=
    match request_id (g st) with
    | Some id => HttpResponse (status_code resp) (<["X-Request-ID" := id]> (headers resp))
    | None => resp
    end in
  (resp', AppState (g st) (clear_context (context st)) m ev).

(** [type(exception).__name__] *)
Definition class_name (c : exc_class) : string :=
  match c with
  | BaseException => "BaseException"
  | Exception => "Exception"
  | ValueError => "ValueError"
  | RuntimeError => "RuntimeError"
  | TypeError => "TypeError"
  | OSError => "OSError"
  | ConnectionError => "ConnectionError"
  | TimeoutError => "TimeoutError"
  | StopAsyncIteration => "StopAsyncIteration"
  | CancelledError => "CancelledError"
  | KeyboardInterrupt => "KeyboardInterrupt"
  end.

(** [teardown_request] *)
Definition teardown_request (exception : option exn) (req : request)
    (st : app_state) : app_state :=
  match exception with
  | Some e =>
      AppState (g st) (clear_context (context st))
               (record_error "flask" (class_name (exc_type e)) (collector st))
               (events st ++ [RequestException (method req) (path req) (exc_msg e)])
  | None => AppState (g st) (clear_context (context st)) (collector st) (events st)
  end.

(** A request that passes through [before_request] and [after_request]:
    the response keeps its status code and its other headers and gains the
    request id generated for it; the request is counted once, under its
    method, its endpoint (["unknown"] when it has none) and its status
    code, with the time between the two hooks as its duration; and no
    logging context is left behind for the next request. *)
Theorem request_round_trip (new_request_id : string) (t0 t1 : Q) (req : request)
    (resp : http_response) (st : app_state) :
  let served := after_request t1 req resp (before_request new_request_id t0 req st) in
  let labels := (method req, endpoint_or_unknown req, pretty (status_code resp)) in
  status_code (fst served) = status_code resp ∧
  headers (fst served) !! "X-Request-ID" = Some new_request_id ∧
  (∀ h, h ≠ "X-Request-ID" → headers (fst served) !! h = headers resp !! h) ∧
  context (snd served) = ∅ ∧
  http_requests_total (collector (snd served)) !!! labels
  = S (http_requests_total (collector st) !!! labels) ∧
  (∀ other, other ≠ labels →
     http_requests_total (collector (snd served)) !!! other
     = http_requests_total (collector st) !!! other) ∧
  http_request_duration_seconds (collector (snd served))
    !!! (method req, endpoint_or_unknown req)
  = http_request_duration_seconds (collector st)
      !!! (method req, endpoint_or_unknown req) ++ [(t1 - t0)%Q].
Proof.
  simpl. split_and!.
  - done.
  - apply lookup_insert_eq.
  - intros h Hh. by rewrite lookup_insert_ne.
  - done.
  - apply inc_same.
  - intros other Ho. by apply inc_other.
  - unfold observe. by rewrite lookup_total_insert_eq.
Qed.

(** When [before_request] did not run for a request, [after_request]
    records nothing and adds no header: it returns the response as it got
    it and only clears the logging context. *)
Theorem after_request_without_before (now : Q) (req : request)
    (resp : http_response) (st : app_state) :
  g st = G None None →
  after_request now req resp st
  = (resp, AppState (g st) ∅ (collector st) (events st)).
Proof. intros Hg. unfold after_request. by rewrite Hg. Qed.

(** Whatever was bound, and whether or not the request failed, the
    teardown hook leaves no logging context; it counts one error under the
    exception's class name when there is an exception and touches no
    metric when there is none. *)
Theorem teardown_request_clears_and_counts (exception : option exn)
    (req : request) (st : app_state) :
  let st' := teardown_request exception req st in
  context st' = ∅ ∧
  (exception = None → collector st' = collector st ∧ events st' = events st) ∧
  (∀ e, exception = Some e →
     errors_total (collector st') !!! ("flask", class_name (exc_type e))
     = S (errors_total (collector st) !!! ("flask", class_name (exc_type e))) ∧
     http_requests_total (collector st') = http_requests_total (collector st)).
Proof.
  simpl. split_and!.
  - by destruct exception.
  - by intros ->.
  - intros e ->. simpl. split; [apply inc_same | done].
Qed.

End Monitoring.

(* ===================================================================== *)
(** ** [async_context_manager]                                            *)
(* ===================================================================== *)

Module ContextManager.

(** An async generator as its consumer sees it: what each [__anext__()]
    will do, in order.  [Ret v] is a [yield v]; [Raise e] is an exception
    escaping the generator's code, which finishes it; running off the end
    of the code is [StopAsyncIteration]. *)
Definition generator : Type := list (result value).

(** [await generator.__anext__()] *)
Definition anext (gen : generator) : result value * generator :=
  match gen with
  | [] => (Raise (Exn StopAsyncIteration ""), [])
  | Ret v :: rest => (Ret v, rest)
  | Raise e :: _ => (Raise e, [])
  end.

(** [AsyncContextManager.__aenter__]: the first value of the generator
    that [async_enter_func] makes. *)
Definition aenter (async_enter_func : generator) : result value * generator :=
  anext async_enter_func.

(** [AsyncContextManager.__aexit__]: the generator is advanced once more;
    [StopAsyncIteration] is passed over, and the method returns [False].
    The exception of the body is not looked at, and [async_exit_func] is
    not used. *)
Definition aexit (gen : generator) : result bool * generator :=
  match anext gen with
  | (Ret _, gen') => (Ret false, gen')
  | (Raise e, gen') =>
      if isinstance e [StopAsyncIteration] then (Ret false, gen')
      else (Raise e, gen')
  end.

(** [async with manager as resource: body]: [__aexit__] runs whether or
    not the body raised; a false result lets the body's exception go on,
    an exception of [__aexit__] replaces it. *)
Definition async_with (async_enter_func : generator)
    (body : value → result value) : result value * generator :=
  match aenter async_enter_func with
  | (Raise e, gen) => (Raise e, gen)
  | (Ret resource, gen) =>
      let outcome := body resource in
      match aexit gen with
      | (Raise e, gen') => (Raise e, gen')
      | (Ret suppress, gen') =>
          match outcome with
          | Ret v => (Ret v, gen')
          | Raise e => if suppress then (Ret VNone, gen') else (Raise e, gen')
          end
      end
  end.

(** The docstring's resource: set up, yield, clean up. *)
Definition my_resource : generator := [Ret (VStr "resource")].

Example async_with_my_resource :
  async_with my_resource (λ r, Ret r) = (Ret (VStr "resource"), []).
Proof. reflexivity. Qed.


End ContextManager.
